(** * Tools configuration: catalog, schema, loader and resolver

    A shallow embedding of [src/shared/config/tools-config.ts]: the static
    catalog of features and tools, the zod schema of the configuration file,
    the loader [loadToolsConfig] and the resolver functions
    [isFeatureEnabled], [isToolEnabled], [getEnabledTools] and
    [getDisabledTools]. *)

From Stdlib Require Import Floats.
From stdpp Require Import base option list strings gmap pretty.

#[local] Set Warnings "-clear-no-such-hyp".

(** ** Property reads on plain JavaScript objects *)

(** [TOOL_TO_FEATURE] (built from the literal [{}]) and the [features] object
    of a configuration are plain objects: a read [o[k]] yields the own
    property [k], else the member [k] inherited from [Object.prototype], else
    [undefined]. *)
Module Js.

Inductive value (A : Type) : Type :=
| Val (a : A)
| Builtin (member : string)
| Undefined.
Arguments Val {A} a.
Arguments Builtin {A} member.
Arguments Undefined {A}.

(** The property names every plain object inherits from [Object.prototype]. *)
Definition Object_prototype : list string :=
  [ "constructor"; "__defineGetter__"; "__defineSetter__"; "hasOwnProperty";
    "__lookupGetter__"; "__lookupSetter__"; "isPrototypeOf";
    "propertyIsEnumerable"; "toString"; "valueOf"; "__proto__";
    "toLocaleString" ].

(** [o[k]] *)
Definition get {A} (o : gmap string A) (k : string) : value A :=
  match o !! k with
  | Some a => Val a
  | None => if bool_decide (k ∈ Object_prototype) then Builtin k else Undefined
  end.

(** [String(v)] for an inherited member [v]: [__proto__] reads
    [Object.prototype] itself, [constructor] is the function [Object], the
    others are native functions carrying their own name. *)
Definition builtin_to_string (member : string) : string :=
  if String.eqb member "__proto__" then "[object Object]"
  else if String.eqb member "constructor"
       then "function Object() { [native code] }"
       else "function " +:+ member +:+ "() { [native code] }".

(** The property key a value is coerced to when it is used inside [o[...]]. *)
Definition to_property_key (v : value string) : string :=
  match v with
  | Val s => s
  | Builtin m => builtin_to_string m
  | Undefined => "undefined"
  end.

(** Truthiness: functions and objects are truthy, [undefined] is falsy. *)
Definition truthy {A} (truthy_val : A → bool) (v : value A) : bool :=
  match v with
  | Val a => truthy_val a
  | Builtin _ => true
  | Undefined => false
  end.

Definition truthy_string (s : string) : bool := negb (String.eqb s "").
Definition truthy_bool (b : bool) : bool := b.

(** [a.includes(x)] on an array of strings. *)
Fixpoint includes (a : list string) (x : string) : bool :=
  match a with
  | [] => false
  | y :: a' => if String.eqb y x then true else includes a' x
  end.

(** [a.filter(p)] *)
Fixpoint filter {A} (p : A → bool) (a : list A) : list A :=
  match a with
  | [] => []
  | x :: a' => if p x then x :: filter p a' else filter p a'
  end.

(** [a.join(sep)] on an array of strings. *)
Fixpoint join (sep : string) (a : list string) : string :=
  match a with
  | [] => ""
  | [x] => x
  | x :: a' => x +:+ sep +:+ join sep a'
  end.

End Js.

(** ** Catalog *)

(** [FeatureName]: at run time a string, one of [FEATURE_NAMES]. *)
Abbreviation FeatureName := string (only parsing).

Definition FEATURE_NAMES : list FeatureName :=
  [ "users"; "organizations"; "projects"; "repositories"; "work-items";
    "search"; "pull-requests"; "pipelines"; "wikis" ].

(** The object literal [FEATURE_TOOLS], as its entries in property order
    (what [Object.entries] returns). *)
Definition FEATURE_TOOLS : list (FeatureName * list string) :=
  [ ("users", ["get_me"]);
    ("organizations", ["list_organizations"]);
    ("projects", ["list_projects"; "get_project"; "get_project_details"]);
    ("repositories",
      [ "get_repository"; "get_repository_details"; "list_repositories";
        "get_file_content"; "get_all_repositories_tree"; "get_repository_tree";
        "create_branch"; "create_commit"; "list_commits" ]);
    ("work-items",
      [ "list_work_items"; "get_work_item"; "create_work_item";
        "update_work_item"; "manage_work_item_link" ]);
    ("search", ["search_code"; "search_wiki"; "search_work_items"]);
    ("pull-requests",
      [ "create_pull_request"; "list_pull_requests";
        "get_pull_request_comments"; "add_pull_request_comment";
        "update_pull_request"; "get_pull_request_changes";
        "get_pull_request_checks"; "update_pull_request_comment" ]);
    ("pipelines",
      [ "list_pipelines"; "get_pipeline"; "list_pipeline_runs";
        "get_pipeline_run"; "download_pipeline_artifact"; "pipeline_timeline";
        "get_pipeline_log"; "trigger_pipeline" ]);
    ("wikis",
      [ "get_wikis"; "get_wiki_page"; "create_wiki"; "update_wiki_page";
        "list_wiki_pages"; "create_wiki_page" ]) ].

(** [FEATURE_TOOLS[f]] for a feature name [f]. *)
Fixpoint tools_of (entries : list (FeatureName * list string)) (f : FeatureName)
  : list string :=
  match entries with
  | [] => []
  | (g, tools) :: entries' => if String.eqb g f then tools else tools_of entries' f
  end.

(** The body of the reducer: [for (const tool of tools) acc[tool] = feature].
    A later assignment to the same tool replaces the earlier one. *)
Definition assign_tools (acc : gmap string FeatureName)
    (entry : FeatureName * list string) : gmap string FeatureName :=
  foldl (λ acc tool, <[tool := entry.1]> acc) acc entry.2.

(** [Object.entries(catalog).reduce(..., {})] *)
Definition reverse_index (catalog : list (FeatureName * list string))
  : gmap string FeatureName :=
  foldl assign_tools ∅ catalog.

Definition TOOL_TO_FEATURE : gmap string FeatureName :=
  reverse_index FEATURE_TOOLS.

(** Every tool of the catalog, in catalog order. *)
Definition all_tools (catalog : list (FeatureName * list string)) : list string :=
  concat (map snd catalog).

(** ** Configuration *)

Record ToolsSection : Type := { disabled : list string }.

Record ToolsConfig : Type :=
  { features : gmap string bool;
    tools : ToolsSection }.

Definition DEFAULT_TOOLS_CONFIG : ToolsConfig :=
  {| features := ∅; tools := {| disabled := [] |} |}.

(** A configuration as the schema produces it: every key of [features] is one
    of [FEATURE_NAMES]. *)
Definition normalized (config : ToolsConfig) : Prop :=
  ∀ k, is_Some (features config !! k) → k ∈ FEATURE_NAMES.

(** ** Resolver *)

(** [featureName] is a [FeatureName] for the callers the types allow; inside
    [isToolEnabled] it is whatever [TOOL_TO_FEATURE[toolName]] reads, coerced
    to a property key. The result is [true] when the read of [config.features]
    is [undefined], else what was read. *)
Definition isFeatureEnabled (featureName : string) (config : ToolsConfig)
  : Js.value bool :=
  match Js.get (features config) featureName with
  | Js.Undefined => Js.Val true
  | v => v
  end.

Definition isToolEnabled (toolName : string) (config : ToolsConfig) : bool :=
  let featureName := Js.get TOOL_TO_FEATURE toolName in
  if Js.truthy Js.truthy_string featureName
     && negb (Js.truthy Js.truthy_bool
                (isFeatureEnabled (Js.to_property_key featureName) config))
  then false
  else if Js.includes (disabled (tools config)) toolName then false
  else true.

Definition getEnabledTools (allToolNames : list string) (config : ToolsConfig)
  : list string :=
  Js.filter (λ toolName, isToolEnabled toolName config) allToolNames.

Definition getDisabledTools (allToolNames : list string) (config : ToolsConfig)
  : list string :=
  Js.filter (λ toolName, negb (isToolEnabled toolName config)) allToolNames.

(** ** JSON values *)

(** What [JSON.parse] returns. An object lists its own properties in
    enumeration order, each key once. [undefined] is not a JSON value: an
    input that may be [undefined] is an [option json]. *)
#[warnings="-register-all"]
Inductive json : Type :=
| JNull
| JBoolean (b : bool)
| JNumber (n : float)
| JString (s : string)
| JArray (items : list json)
| JObject (entries : list (string * json)).

(** [data[key]] on a parsed object, for a key that is not a member of
    [Object.prototype]. *)
Fixpoint field (entries : list (string * json)) (key : string) : option json :=
  match entries with
  | [] => None
  | (k, v) :: entries' => if String.eqb k key then Some v else field entries' key
  end.

(** ** The zod combinators used by the schema *)

(** The parsers of zod 3 that [ToolsConfigSchema] is built from, as functions
    from the input to the issues added and the output. The issues come in the
    order in which zod adds them to the parse context. *)

Module Zod.

Inductive segment : Type := Key (k : string) | Index (i : nat).

(** The two fields of a [ZodIssue] the loader reads. *)
Record ZodIssue : Type := { path : list segment; message : string }.

(** [_parse]: the path of the input and the input, to the issues added and
    the output ([None] when the status is aborted). *)
Definition ZodType (A : Type) : Type :=
  list segment → option json → list ZodIssue * option A.

(** [getParsedType] *)
Definition parsed_type (data : option json) : string :=
  match data with
  | None => "undefined"
  | Some JNull => "null"
  | Some (JBoolean _) => "boolean"
  | Some (JNumber n) => if PrimFloat.is_nan n then "nan" else "number"
  | Some (JString _) => "string"
  | Some (JArray _) => "array"
  | Some (JObject _) => "object"
  end.

(** [util.joinValues]: ['a' | 'b' | ...]. *)
Definition joinValues (values : list string) : string :=
  Js.join " | " (map (λ v, "'" +:+ v +:+ "'") values).

(** The default error map, for the codes [invalid_type] and
    [invalid_enum_value]. *)
Definition invalid_type (path : list segment) (expected : string)
    (data : option json) : ZodIssue :=
  {| path := path;
     message :=
       match data with
       | None => "Required"
       | Some _ => "Expected " +:+ expected +:+ ", received " +:+ parsed_type data
       end |}.

Definition invalid_enum_value (path : list segment) (options : list string)
    (received : string) : ZodIssue :=
  {| path := path;
     message := "Invalid enum value. Expected " +:+ joinValues options
                +:+ ", received '" +:+ received +:+ "'" |}.

Definition abort {A} (issue : ZodIssue) : list ZodIssue * option A :=
  ([issue], None).

(** [z.string()] *)
Definition z_string : ZodType string := λ path data,
  match data with
  | Some (JString s) => ([], Some s)
  | _ => abort (invalid_type path "string" data)
  end.

(** [z.boolean()] *)
Definition z_boolean : ZodType bool := λ path data,
  match data with
  | Some (JBoolean b) => ([], Some b)
  | _ => abort (invalid_type path "boolean" data)
  end.

(** [z.enum(values)] *)
Definition z_enum (values : list string) : ZodType string := λ path data,
  match data with
  | Some (JString s) =>
      if Js.includes values s then ([], Some s)
      else abort (invalid_enum_value path values s)
  | _ => abort (invalid_type path (joinValues values) data)
  end.

(** [ParseStatus.mergeArray]: the issues of every element, and the outputs
    unless one element aborted. *)
Fixpoint mergeArray {A} (results : list (list ZodIssue * option A))
  : list ZodIssue * option (list A) :=
  match results with
  | [] => ([], Some [])
  | (issues, r) :: results' =>
      let '(issues', rs) := mergeArray results' in
      (issues ++ issues',
       match r, rs with
       | Some a, Some l => Some (a :: l)
       | _, _ => None
       end)
  end.

(** [z.array(type)]: every element is parsed, at path [path.concat(i)]. *)
Definition z_array {A} (type : ZodType A) : ZodType (list A) := λ path data,
  match data with
  | Some (JArray items) =>
      mergeArray (imap (λ i item, type (path ++ [Index i]) (Some item)) items)
  | _ => abort (invalid_type path "array" data)
  end.

(** [ParseStatus.mergeObjectSync] on the pairs of a record: the issues of
    every key and value; the outputs are assigned in order,
    [finalObject[key] = value], except for the key [__proto__]. *)
Fixpoint mergeRecord {V}
    (pairs : list ((list ZodIssue * option string) * (list ZodIssue * option V)))
    (finalObject : gmap string V) : list ZodIssue * option (gmap string V) :=
  match pairs with
  | [] => ([], Some finalObject)
  | ((kissues, k), (vissues, v)) :: pairs' =>
      let finalObject' :=
        match k, v with
        | Some key, Some val =>
            if String.eqb key "__proto__" then finalObject
            else <[key := val]> finalObject
        | _, _ => finalObject
        end in
      let '(issues', r) := mergeRecord pairs' finalObject' in
      (kissues ++ vissues ++ issues',
       match k, v with
       | Some _, Some _ => r
       | _, _ => None
       end)
  end.

(** [z.record(keyType, valueType)]: every own key and its value are parsed,
    both at path [path.concat(key)]. *)
Definition z_record {V} (keyType : ZodType string) (valueType : ZodType V)
  : ZodType (gmap string V) := λ path data,
  match data with
  | Some (JObject entries) =>
      mergeRecord
        (map (λ kv : string * json,
                (keyType (path ++ [Key kv.1]) (Some (JString kv.1)),
                 valueType (path ++ [Key kv.1]) (Some kv.2)))
             entries)
        ∅
  | _ => abort (invalid_type path "object" data)
  end.

(** [type.optional()]: [undefined] is accepted as it is. *)
Definition z_optional {A} (type : ZodType A) : ZodType (option A) :=
  λ path data,
  match data with
  | None => ([], Some None)
  | Some _ => let '(issues, r) := type path data in (issues, Some <$> r)
  end.

(** [util.noUndefined<T>]: the output type of [type.default(value)] is the
    output type of [type] without [undefined]. *)
Class NoUndefined (A B : Type) : Type := no_undefined : A → option B.
#[global] Hint Mode NoUndefined ! - : typeclass_instances.
#[global] Instance no_undefined_optional {B} : NoUndefined (option B) B | 0 :=
  λ a, a.
#[global] Instance no_undefined_defined {A} : NoUndefined A A | 9 := Some.

(** [type.default(value)]: [undefined] is replaced by [value] before [type]
    parses it, so [type] always parses a defined input. *)
Definition z_default {A B} `{!NoUndefined A B} (type : ZodType A)
    (defaultValue : json) : ZodType B := λ path data,
  let '(issues, r) := type path (Some (default defaultValue data)) in
  (issues, r ≫= no_undefined).

(** [z.object(shape)] with one and with two shape keys, unknown keys
    stripped (the default [unknownKeys: "strip"]): each shape key is parsed
    on [data[key]] at path [path.concat(key)], in shape order, and the
    output holds the shape keys only. [build] is the output object. *)
Definition z_object1 {A R} (key : string) (type : ZodType A) (build : A → R)
  : ZodType R := λ path data,
  match data with
  | Some (JObject entries) =>
      let '(issues, r) := type (path ++ [Key key]) (field entries key) in
      (issues, build <$> r)
  | _ => abort (invalid_type path "object" data)
  end.

Definition z_object2 {A B R} (key1 : string) (type1 : ZodType A)
    (key2 : string) (type2 : ZodType B) (build : A → B → R)
  : ZodType R := λ path data,
  match data with
  | Some (JObject entries) =>
      let '(issues1, r1) := type1 (path ++ [Key key1]) (field entries key1) in
      let '(issues2, r2) := type2 (path ++ [Key key2]) (field entries key2) in
      (issues1 ++ issues2,
       match r1, r2 with
       | Some a, Some b => Some (build a b)
       | _, _ => None
       end)
  | _ => abort (invalid_type path "object" data)
  end.

(** [type.parse(data)]: the output when the status is valid, else a
    [ZodError] with the issues. *)
Definition parse {A} (type : ZodType A) (data : option json)
  : list ZodIssue + A :=
  match type [] data with
  | (_, Some a) => inr a
  | (issues, None) => inl issues
  end.

End Zod.

(** ** Schema *)

Definition ToolsConfigSchema : Zod.ZodType ToolsConfig :=
  Zod.z_default
    (Zod.z_object2
       "features"
       (Zod.z_default
          (Zod.z_optional (Zod.z_record (Zod.z_enum FEATURE_NAMES) Zod.z_boolean))
          (JObject []))
       "tools"
       (Zod.z_default
          (Zod.z_optional
             (Zod.z_object1
                "disabled"
                (Zod.z_default (Zod.z_optional (Zod.z_array Zod.z_string))
                   (JArray []))
                Build_ToolsSection))
          (JObject [("disabled", JArray [])]))
       Build_ToolsConfig)
    (JObject []).

(** ** Loader *)

(** What [loadToolsConfig] reads from its host: the environment variable, the
    working directory, [path.join], the two [fs] calls and [JSON.parse].
    [fs.readFileSync] returns the contents or throws a system error;
    [JSON.parse] returns a value or throws a [SyntaxError] with a message. *)
Record Host (io_error : Type) : Type :=
  { env_AZURE_DEVOPS_TOOLS_CONFIG : option string;
    cwd : string;
    path_join : string → string → string;
    existsSync : string → bool;
    readFileSync : string → io_error + string;
    JSON_parse : string → string + json }.
Arguments env_AZURE_DEVOPS_TOOLS_CONFIG {io_error} _.
Arguments cwd {io_error} _.
Arguments path_join {io_error} _ _ _.
Arguments existsSync {io_error} _ _.
Arguments readFileSync {io_error} _ _.
Arguments JSON_parse {io_error} _ _.

(** What can be thrown inside, and out of, [loadToolsConfig]. *)
Inductive exception (io_error : Type) : Type :=
| Error (message : string)
| SyntaxError (message : string)
| ZodError (issues : list Zod.ZodIssue)
| IoError (e : io_error).
Arguments Error {io_error} message.
Arguments SyntaxError {io_error} message.
Arguments ZodError {io_error} issues.
Arguments IoError {io_error} e.

(** A [try] block: a value, or the exception that left the block. *)
#[global] Instance try_ret {E} : MRet (sum E) := λ A a, inr a.
#[global] Instance try_bind {E} : MBind (sum E) := λ A B f m,
  match m with
  | inl e => inl e
  | inr a => f a
  end.

Definition throw_as {E E' A} (wrap : E → E') (m : E + A) : E' + A :=
  match m with
  | inl e => inl (wrap e)
  | inr a => inr a
  end.

(** The line feed of the template literals. *)
Definition LF : string := String (Ascii.ascii_of_nat 10) "".

(** [a || b] on strings: [a] unless it is [undefined] or empty. *)
Definition or_else (a : option string) (b : string) : string :=
  match a with
  | Some s => if Js.truthy_string s then s else b
  | None => b
  end.

(** The elements of [path], coerced to strings for [path.join('.')]. *)
Definition segment_to_string (s : Zod.segment) : string :=
  match s with
  | Zod.Key k => k
  | Zod.Index i => pretty i
  end.

(** One line of the validation message. *)
Definition format_issue (i : Zod.ZodIssue) : string :=
  "  - " +:+ Js.join "." (map segment_to_string (Zod.path i)) +:+ ": "
  +:+ Zod.message i.

(** The result of a call: what was written to [process.stderr], and the value
    returned or the exception thrown. *)
Record outcome (io_error : Type) : Type :=
  { stderr : list string;
    completion : exception io_error + ToolsConfig }.
Arguments stderr {io_error} _.
Arguments completion {io_error} _.

Section Loader.
Context {io_error : Type} (host : Host io_error).

Definition effectivePath (configPath : option string) : string :=
  or_else configPath
    (or_else (env_AZURE_DEVOPS_TOOLS_CONFIG host)
       (path_join host (cwd host) "tools.config.json")).

(** The lines written after a successful parse. *)
Definition log_loaded (path : string) (parsedConfig : ToolsConfig)
  : list string :=
  let disabledFeatures :=
    Js.filter
      (λ f, negb (Js.truthy Js.truthy_bool (isFeatureEnabled f parsedConfig)))
      FEATURE_NAMES in
  let disabledTools := disabled (tools parsedConfig) in
  ["DEBUG - Tools config loaded from: " +:+ path +:+ LF]
  ++ (if 0 <? length disabledFeatures
      then ["  Disabled features: " +:+ Js.join ", " disabledFeatures +:+ LF]
      else [])
  ++ (if 0 <? length disabledTools
      then ["  Disabled tools: " +:+ Js.join ", " disabledTools +:+ LF]
      else [])
  ++ (if (length disabledFeatures =? 0)
         && (length disabledTools =? 0)
      then ["  All features and tools enabled" +:+ LF]
      else []).

(** The body of the [try] block, up to the parsed configuration. *)
Definition try_load (path : string) : exception io_error + ToolsConfig :=
  configContent ← throw_as IoError (readFileSync host path);
  rawConfig ← throw_as SyntaxError (JSON_parse host configContent);
  parsedConfig ← throw_as ZodError (Zod.parse ToolsConfigSchema (Some rawConfig));
  mret parsedConfig.

(** The [catch] block. *)
Definition catch (path : string) (error : exception io_error)
  : exception io_error :=
  match error with
  | SyntaxError message =>
      Error ("Invalid JSON in tools config file at " +:+ path +:+ ": "
             +:+ message)
  | ZodError issues =>
      Error ("Invalid tools config file at " +:+ path +:+ ":" +:+ LF
             +:+ Js.join LF (map format_issue issues))
  | _ => error
  end.

Definition loadToolsConfig (configPath : option string) : outcome io_error :=
  let path := effectivePath configPath in
  if negb (existsSync host path)
  then {| stderr := []; completion := inr DEFAULT_TOOLS_CONFIG |}
  else
    match try_load path with
    | inr parsedConfig =>
        {| stderr := log_loaded path parsedConfig;
           completion := inr parsedConfig |}
    | inl error => {| stderr := []; completion := inl (catch path error) |}
    end.

End Loader.

(** ** Validity of a parse result *)

(** A schema is coherent when its status is aborted exactly when it added an
    issue: then [parse] throws a [ZodError] that lists at least one issue. *)
Definition coherent {A} (type : Zod.ZodType A) : Prop :=
  ∀ path data, (type path data).2 = None ↔ (type path data).1 ≠ [].

(** ** The schema, part by part *)

(** The three nested schemas that [ToolsConfigSchema] writes inline. *)
Definition features_schema : Zod.ZodType (gmap string bool) :=
  Zod.z_default
    (Zod.z_optional (Zod.z_record (Zod.z_enum FEATURE_NAMES) Zod.z_boolean))
    (JObject []).

Definition disabled_schema : Zod.ZodType (list string) :=
  Zod.z_default (Zod.z_optional (Zod.z_array Zod.z_string)) (JArray []).

Definition tools_schema : Zod.ZodType ToolsSection :=
  Zod.z_default
    (Zod.z_optional (Zod.z_object1 "disabled" disabled_schema Build_ToolsSection))
    (JObject [("disabled", JArray [])]).

(** The issues [ToolsConfigSchema] adds on a parsed value. *)
Definition schema_issues (raw : json) : list Zod.ZodIssue :=
  (ToolsConfigSchema [] (Some raw)).1.

(** ** The schema as the specification words it *)

Definition is_object (v : json) : bool :=
  match v with JObject _ => true | _ => false end.
Definition is_array (v : json) : bool :=
  match v with JArray _ => true | _ => false end.
Definition is_boolean (v : json) : bool :=
  match v with JBoolean _ => true | _ => false end.
Definition is_string (v : json) : bool :=
  match v with JString _ => true | _ => false end.

(** Following the specification (4.2): [features], if present, must be an
    object whose keys are each one of the closed feature enumeration and whose
    values are booleans; [tools.disabled], if present, must be an array of
    strings. [violation raw path] says that [raw] breaks this at [path]. *)
Inductive violation : json → list Zod.segment → Prop :=
| top_level_not_object raw :
    is_object raw = false → violation raw []
| features_not_object es v :
    field es "features" = Some v → is_object v = false →
    violation (JObject es) [Zod.Key "features"]
| feature_key_unknown es kvs k v :
    field es "features" = Some (JObject kvs) → (k, v) ∈ kvs →
    k ∉ FEATURE_NAMES →
    violation (JObject es) [Zod.Key "features"; Zod.Key k]
| feature_value_not_boolean es kvs k v :
    field es "features" = Some (JObject kvs) → (k, v) ∈ kvs →
    is_boolean v = false →
    violation (JObject es) [Zod.Key "features"; Zod.Key k]
| tools_not_object es v :
    field es "tools" = Some v → is_object v = false →
    violation (JObject es) [Zod.Key "tools"]
| disabled_not_array es ts v :
    field es "tools" = Some (JObject ts) → field ts "disabled" = Some v →
    is_array v = false →
    violation (JObject es) [Zod.Key "tools"; Zod.Key "disabled"]
| disabled_item_not_string es ts items i v :
    field es "tools" = Some (JObject ts) →
    field ts "disabled" = Some (JArray items) → items !! i = Some v →
    is_string v = false →
    violation (JObject es) [Zod.Key "tools"; Zod.Key "disabled"; Zod.Index i].

(** The top-level keys the schema knows. *)
Definition known_key (kv : string * json) : bool :=
  String.eqb kv.1 "features" || String.eqb kv.1 "tools".

(** ** The failures of the loader, as the specification names them *)

(** The specification (7) names the two failures [ParseError] and
    [ConfigValidationError]; the loader throws them as plain [Error]s whose
    message holds the path, and the parser's message or one line per issue. *)
Definition ParseError {io_error} (path message : string) : exception io_error :=
  Error ("Invalid JSON in tools config file at " +:+ path +:+ ": " +:+ message).

Definition ConfigValidationError {io_error} (path : string)
    (issues : list Zod.ZodIssue) : exception io_error :=
  Error ("Invalid tools config file at " +:+ path +:+ ":" +:+ LF
         +:+ Js.join LF (map format_issue issues)).

(** ** Updating a pull request comment *)

Module PullRequests.

(** What an awaited call can reject with, as the [catch] block tells the
    values apart: an instance of [AzureDevOpsError] (the class of
    [shared/errors], of which only [instanceof] is used), another [Error] with
    its message, or a value that is no [Error], with [String(value)]. *)
Inductive thrown (E : Type) : Type :=
| AzureDevOpsError (e : E)
| OtherError (message : string)
| NotAnError (text : string).
Arguments AzureDevOpsError {E} e.
Arguments OtherError {E} message.
Arguments NotAnError {E} text.

(** A comment: its [commentType] and its other properties, which the spread
    [...updatedComment] copies. *)
Record Comment (T R : Type) : Type :=
  { commentType : T;
    properties : R }.
Arguments commentType {T R} _.
Arguments properties {T R} _.

Section UpdateComment.
Context {E R : Type}.
(** [transformCommentType] of [shared/enums], applied to a [commentType] that
    may be [undefined]. *)
Context (transformCommentType : option nat → option string).

(** [gitApi.updateComment(comment, repositoryId, pullRequestId, threadId,
    commentId, project)], on the comment [{ content }]: resolves to a comment,
    to [null] or [undefined] ([None]), or rejects. *)
Record GitApi : Type :=
  { updateComment :
      string → string → float → float → float → string →
      thrown E + option (Comment (option nat) R) }.

Record WebApi : Type := { getGitApi : thrown E + GitApi }.

Record UpdateCommentResponse : Type :=
  { comment : Comment (option string) R }.

(** The [try] block. *)
Definition try_update (connection : WebApi) (projectId repositoryId : string)
    (pullRequestId threadId commentId : float) (content : string)
  : thrown E + UpdateCommentResponse :=
  gitApi ← getGitApi connection;
  updatedComment ←
    updateComment gitApi content repositoryId pullRequestId threadId commentId
      projectId;
  match updatedComment with
  | None => inl (OtherError "Failed to update pull request comment")
  | Some updated =>
      inr {| comment :=
               {| commentType := transformCommentType (commentType updated);
                  properties := properties updated |} |}
  end.

(** The [catch] block. *)
Definition rethrow (error : thrown E) : thrown E :=
  match error with
  | AzureDevOpsError _ => error
  | OtherError message =>
      OtherError ("Failed to update pull request comment: " +:+ message)
  | NotAnError text =>
      OtherError ("Failed to update pull request comment: " +:+ text)
  end.

Definition updatePullRequestComment (connection : WebApi)
    (projectId repositoryId : string) (pullRequestId threadId commentId : float)
    (content : string) : thrown E + UpdateCommentResponse :=
  match try_update connection projectId repositoryId pullRequestId threadId
          commentId content with
  | inr response => inr response
  | inl error => inl (rethrow error)
  end.

End UpdateComment.

End PullRequests.

(** ** Example connections *)

(** A connection whose [updateComment] settles as given, with errors and the
    other properties of a comment carried as strings. *)
Definition example_connection
    (settles : PullRequests.thrown string
               + option (PullRequests.Comment (option nat) string))
  : PullRequests.WebApi :=
  {| PullRequests.getGitApi :=
       inr {| PullRequests.updateComment := λ _ _ _ _ _ _, settles |} |}.

(** A [transformCommentType] for the examples. *)
Definition example_transform (type : option nat) : option string :=
  match type with
  | Some 1 => Some "text"
  | Some 2 => Some "codeChange"
  | Some 3 => Some "system"
  | _ => None
  end.

(** ** Example hosts *)

(** A host for the examples: no environment variable, working directory
    [/srv/app], and a file system holding the files of [files]. *)
Definition example_host (env : option string) (files : list (string * string))
    (parser : string → string + json) : Host unit :=
  {| env_AZURE_DEVOPS_TOOLS_CONFIG := env;
     cwd := "/srv/app";
     path_join := λ a b, a +:+ "/" +:+ b;
     existsSync := λ p, bool_decide (p ∈ files.*1);
     readFileSync := λ p,
       match list_find (λ kv : string * string, kv.1 = p) files with
       | Some (_, kv) => inr kv.2
       | None => inl ()
       end;
     JSON_parse := parser |}.

(** * Properties *)

(** ** Examples *)

Example isToolEnabled_pipelines_off :
  isToolEnabled "list_pipelines"
    {| features := {["pipelines" := false]}; tools := {| disabled := [] |} |}
  = false.
Proof. vm_compute. reflexivity. Qed.

Example isToolEnabled_builtin_name :
  isToolEnabled "constructor" DEFAULT_TOOLS_CONFIG = true.
Proof. vm_compute. reflexivity. Qed.

Example schema_empty_object :
  Zod.parse ToolsConfigSchema (Some (JObject [])) = inr DEFAULT_TOOLS_CONFIG.
Proof. reflexivity. Qed.

Example schema_unknown_feature :
  Zod.parse ToolsConfigSchema
    (Some (JObject [("features", JObject [("invalid-feature", JBoolean true)])]))
  = inl [ {| Zod.path := [Zod.Key "features"; Zod.Key "invalid-feature"];
             Zod.message :=
               "Invalid enum value. Expected 'users' | 'organizations' | 'projects' | 'repositories' | 'work-items' | 'search' | 'pull-requests' | 'pipelines' | 'wikis', received 'invalid-feature'" |} ].
Proof. reflexivity. Qed.

(** ** Helpers on the array functions *)

Lemma includes_elem_of (a : list string) (x : string) :
  Js.includes a x = true ↔ x ∈ a.
Proof.
  induction a as [|y a IH]; simpl.
  - split; [discriminate | by intros ?%elem_of_nil].
  - destruct (String.eqb_spec y x) as [->|Hne].
    + split; [intros _; left | done].
    + rewrite IH. split; [by right | by intros [?|?]%elem_of_cons].
Qed.

Lemma includes_false (a : list string) (x : string) :
  Js.includes a x = false ↔ x ∉ a.
Proof.
  rewrite <-includes_elem_of. destruct (Js.includes a x); naive_solver.
Qed.

Lemma filter_elem_of {A} (p : A → bool) (a : list A) (x : A) :
  x ∈ Js.filter p a ↔ x ∈ a ∧ p x = true.
Proof.
  induction a as [|y a IH]; simpl.
  - split; [by intros ?%elem_of_nil | by intros [?%elem_of_nil _]].
  - destruct (p y) eqn:Hy; rewrite ?elem_of_cons, IH.
    + split; [intros [->|[? ?]]; auto | intros [[->|?] ?]; auto].
    + split; [intros [? ?]; auto | intros [[->|?] ?]; [congruence | auto]].
Qed.

Lemma filter_sublist {A} (p : A → bool) (a : list A) :
  sublist (Js.filter p a) a.
Proof.
  induction a as [|y a IH]; simpl; [constructor|].
  destruct (p y); by constructor.
Qed.

(** ** The reverse index of a catalog *)

Section Catalog.
Implicit Types (catalog : list (FeatureName * list string)).
Implicit Types (acc : gmap string FeatureName) (f : FeatureName) (t : string).

Lemma assign_tools_lookup acc f (ts : list string) t :
  assign_tools acc (f, ts) !! t = if decide (t ∈ ts) then Some f else acc !! t.
Proof.
  unfold assign_tools; cbn [fst snd]. revert acc.
  induction ts as [|x ts IH]; intros acc; cbn [foldl].
  - by rewrite decide_False by apply not_elem_of_nil.
  - rewrite IH. destruct (decide (t ∈ ts)) as [Hin|Hnin].
    + by rewrite decide_True by (by right).
    + destruct (decide (x = t)) as [->|Hne].
      * rewrite lookup_insert_eq. by rewrite decide_True by left.
      * rewrite lookup_insert_ne by done.
        rewrite decide_False; [done|]. intros [?|?]%elem_of_cons; naive_solver.
Qed.

Lemma reduce_lookup_other catalog acc t :
  t ∉ all_tools catalog → foldl assign_tools acc catalog !! t = acc !! t.
Proof.
  revert acc. induction catalog as [|[f ts] catalog IH]; intros acc Hnin; [done|].
  unfold all_tools in Hnin. simpl in Hnin. apply not_elem_of_app in Hnin as [H1 H2].
  simpl. rewrite IH by done. rewrite assign_tools_lookup. by rewrite decide_False.
Qed.

Lemma reduce_lookup_sound catalog acc t f :
  foldl assign_tools acc catalog !! t = Some f →
  acc !! t = Some f ∨ ∃ ts, (f, ts) ∈ catalog ∧ t ∈ ts.
Proof.
  revert acc. induction catalog as [|[g ts] catalog IH]; intros acc Hl; [by left|].
  simpl in Hl. apply IH in Hl as [Hl|(ts' & Hin & Ht)].
  - rewrite assign_tools_lookup in Hl. case_decide.
    + simplify_eq. right. exists ts. split; [left | done].
    + by left.
  - right. exists ts'. split; [by right | done].
Qed.

Lemma reduce_lookup_complete catalog acc t f (ts : list string) :
  NoDup (all_tools catalog) → (f, ts) ∈ catalog → t ∈ ts →
  foldl assign_tools acc catalog !! t = Some f.
Proof.
  revert acc. induction catalog as [|[g us] catalog IH]; intros acc Hnd Hin Ht.
  - by apply elem_of_nil in Hin.
  - unfold all_tools in Hnd. simpl in Hnd.
    apply NoDup_app in Hnd as (_ & Hdisj & Hnd).
    apply elem_of_cons in Hin as [Heq|Hin]; simpl.
    + simplify_eq. rewrite reduce_lookup_other by (by apply Hdisj).
      rewrite assign_tools_lookup. by rewrite decide_True.
    + by apply IH.
Qed.

Lemma tools_of_elem_of catalog f t :
  t ∈ tools_of catalog f → ∃ ts, (f, ts) ∈ catalog ∧ t ∈ ts.
Proof.
  induction catalog as [|[g us] catalog IH]; simpl.
  - by intros ?%elem_of_nil.
  - destruct (String.eqb_spec g f) as [->|Hne].
    + intros Ht. exists us. split; [left | done].
    + intros (ts & ? & ?)%IH. exists ts. split; [by right | done].
Qed.

Lemma elem_of_tools_of catalog f (ts : list string) :
  NoDup (catalog.*1) → (f, ts) ∈ catalog → tools_of catalog f = ts.
Proof.
  induction catalog as [|[g us] catalog IH]; simpl; intros Hnd Hin.
  - by apply elem_of_nil in Hin.
  - apply NoDup_cons in Hnd as [Hg Hnd].
    apply elem_of_cons in Hin as [Heq|Hin].
    + simplify_eq. by rewrite String.eqb_refl.
    + destruct (String.eqb_spec g f) as [->|Hne]; [|by apply IH].
      exfalso. apply Hg. apply list_elem_of_fmap. by exists (f, ts).
Qed.

Lemma reverse_index_tools_of catalog f t :
  NoDup (all_tools catalog) →
  t ∈ tools_of catalog f → reverse_index catalog !! t = Some f.
Proof.
  intros Hnd (ts & Hin & Ht)%tools_of_elem_of.
  by apply (reduce_lookup_complete _ _ _ _ ts).
Qed.

Lemma reverse_index_owner catalog f t :
  NoDup (catalog.*1) →
  reverse_index catalog !! t = Some f → t ∈ tools_of catalog f.
Proof.
  intros Hnd [Hl|(ts & Hin & Ht)]%reduce_lookup_sound.
  - by rewrite lookup_empty in Hl.
  - by rewrite (elem_of_tools_of _ _ ts).
Qed.

End Catalog.

Lemma FEATURE_TOOLS_NoDup : NoDup (all_tools FEATURE_TOOLS).
Proof. apply (bool_decide_unpack _). vm_compute. reflexivity. Qed.

Lemma FEATURE_TOOLS_keys : FEATURE_TOOLS.*1 = FEATURE_NAMES.
Proof. reflexivity. Qed.

Lemma FEATURE_NAMES_NoDup : NoDup FEATURE_NAMES.
Proof. apply (bool_decide_unpack _). vm_compute. reflexivity. Qed.

Lemma FEATURE_NAMES_own_keys (f : FeatureName) :
  f ∈ FEATURE_NAMES → (f ∉ Js.Object_prototype) ∧ Js.truthy_string f = true.
Proof.
  revert f. apply Forall_forall.
  apply (bool_decide_unpack _). vm_compute. reflexivity.
Qed.

Lemma builtin_keys_unused (m : string) :
  m ∈ Js.Object_prototype →
  (Js.builtin_to_string m ∉ FEATURE_NAMES)
  ∧ (Js.builtin_to_string m ∉ Js.Object_prototype).
Proof.
  revert m. apply Forall_forall.
  apply (bool_decide_unpack _). vm_compute. reflexivity.
Qed.

Lemma TOOL_TO_FEATURE_owner (t : string) (f : FeatureName) :
  TOOL_TO_FEATURE !! t = Some f ↔ t ∈ tools_of FEATURE_TOOLS f.
Proof.
  split.
  - apply reverse_index_owner. rewrite FEATURE_TOOLS_keys. apply FEATURE_NAMES_NoDup.
  - apply reverse_index_tools_of, FEATURE_TOOLS_NoDup.
Qed.

Lemma TOOL_TO_FEATURE_feature (t : string) (f : FeatureName) :
  TOOL_TO_FEATURE !! t = Some f → f ∈ FEATURE_NAMES.
Proof.
  intros [Hl|(ts & Hin & _)]%reduce_lookup_sound.
  - by rewrite lookup_empty in Hl.
  - rewrite <-FEATURE_TOOLS_keys. apply list_elem_of_fmap. by exists (f, ts).
Qed.

(** ** Resolver *)

Lemma isFeatureEnabled_feature (f : FeatureName) (c : ToolsConfig) :
  f ∈ FEATURE_NAMES →
  isFeatureEnabled f c = Js.Val (default true (features c !! f)).
Proof.
  intros [Hown _]%FEATURE_NAMES_own_keys.
  unfold isFeatureEnabled, Js.get.
  destruct (features c !! f) as [b|]; [done|].
  by rewrite bool_decide_eq_false_2.
Qed.

Lemma isFeatureEnabled_builtin (m : string) (c : ToolsConfig) :
  normalized c → m ∈ Js.Object_prototype →
  isFeatureEnabled (Js.builtin_to_string m) c = Js.Val true.
Proof.
  intros Hc [Hf Hp]%builtin_keys_unused.
  unfold isFeatureEnabled, Js.get.
  destruct (features c !! Js.builtin_to_string m) as [b|] eqn:Hl.
  - exfalso. apply Hf, Hc. by rewrite Hl.
  - by rewrite bool_decide_eq_false_2.
Qed.

(** On a normalized configuration only an own entry of [TOOL_TO_FEATURE] can
    disable a tool at the feature level. *)
Lemma isToolEnabled_unfold (t : string) (c : ToolsConfig) :
  normalized c →
  isToolEnabled t c =
    match TOOL_TO_FEATURE !! t with
    | Some f => default true (features c !! f)
    | None => true
    end
    && negb (Js.includes (disabled (tools c)) t).
Proof.
  intros Hc. unfold isToolEnabled. unfold Js.get at 1 2.
  destruct (TOOL_TO_FEATURE !! t) as [f|] eqn:Hl.
  - apply TOOL_TO_FEATURE_feature in Hl as Hf.
    destruct (FEATURE_NAMES_own_keys f Hf) as [_ Ht].
    cbn [Js.truthy Js.to_property_key]. rewrite Ht, isFeatureEnabled_feature by done.
    cbn [Js.truthy Js.truthy_bool andb].
    destruct (default true (features c !! f)), (Js.includes _ _); done.
  - destruct (bool_decide (t ∈ Js.Object_prototype)) eqn:Hb.
    + apply bool_decide_eq_true in Hb.
      cbn [Js.truthy Js.to_property_key]. rewrite isFeatureEnabled_builtin by done.
      cbn. by destruct (Js.includes _ _).
    + cbn. by destruct (Js.includes _ _).
Qed.

(** C6. For every feature name [f] of the closed enumeration and every
    configuration [c], [isFeatureEnabled f c] returns [c.features[f]] when
    that key is present and [true] when it is absent; on the default
    configuration it returns [true]. *)
Theorem isFeatureEnabled_spec (f : FeatureName) (c : ToolsConfig) :
  f ∈ FEATURE_NAMES →
  (∀ b, features c !! f = Some b → isFeatureEnabled f c = Js.Val b)
  ∧ (features c !! f = None → isFeatureEnabled f c = Js.Val true)
  ∧ isFeatureEnabled f
      {| features := ∅; tools := {| disabled := [] |} |} = Js.Val true.
Proof.
  intros Hf. split_and!.
  - intros b Hb. by rewrite isFeatureEnabled_feature, Hb.
  - intros Hb. by rewrite isFeatureEnabled_feature, Hb.
  - by rewrite isFeatureEnabled_feature.
Qed.

Lemma isFeatureEnabled_spec_witness :
  isFeatureEnabled "pipelines"
    {| features := {["pipelines" := false]}; tools := {| disabled := [] |} |}
  = Js.Val false.
Proof.
  refine (proj1 (isFeatureEnabled_spec "pipelines" _ _) false _).
  - apply (bool_decide_unpack _). vm_compute. reflexivity.
  - vm_compute. reflexivity.
Defined.

(** C1. For every tool name [t] and every normalized configuration [c],
    [isToolEnabled t c] is [false] if [t] has an owning feature in the catalog
    for which [isFeatureEnabled] is [false], is [false] if [t] is listed in
    [c.tools.disabled], and is [true] otherwise; so turning a feature off
    disables every tool of its catalog list, and a tool with no registered
    feature and no entry in [c.tools.disabled] is enabled. *)
Theorem isToolEnabled_spec (t : string) (c : ToolsConfig) :
  normalized c →
  (∀ f, TOOL_TO_FEATURE !! t = Some f →
        isFeatureEnabled f c = Js.Val false → isToolEnabled t c = false)
  ∧ (t ∈ disabled (tools c) → isToolEnabled t c = false)
  ∧ (¬ (∃ f, TOOL_TO_FEATURE !! t = Some f
             ∧ isFeatureEnabled f c = Js.Val false) →
     t ∉ disabled (tools c) → isToolEnabled t c = true)
  ∧ (∀ f t', features c !! f = Some false →
             t' ∈ tools_of FEATURE_TOOLS f → isToolEnabled t' c = false)
  ∧ (TOOL_TO_FEATURE !! t = None → t ∉ disabled (tools c) →
     isToolEnabled t c = true).
Proof.
  intros Hc. split_and!.
  - intros f Hl Hoff. rewrite isToolEnabled_unfold, Hl by done.
    apply TOOL_TO_FEATURE_feature in Hl.
    rewrite isFeatureEnabled_feature in Hoff by done.
    injection Hoff as ->. done.
  - intros Hin%includes_elem_of. rewrite isToolEnabled_unfold, Hin by done.
    apply andb_false_r.
  - intros Hno Hnin%includes_false. rewrite isToolEnabled_unfold, Hnin by done.
    destruct (TOOL_TO_FEATURE !! t) as [f|] eqn:Hl; [|done].
    destruct (default true (features c !! f)) eqn:Hd; [done|].
    exfalso. apply Hno. exists f. split; [done|].
    rewrite isFeatureEnabled_feature, Hd; [done|].
    by apply (TOOL_TO_FEATURE_feature t).
  - intros f t' Hoff Ht'%TOOL_TO_FEATURE_owner.
    by rewrite isToolEnabled_unfold, Ht', Hoff.
  - intros Hl Hnin%includes_false.
    by rewrite isToolEnabled_unfold, Hl, Hnin.
Qed.

Lemma normalized_pipelines_off :
  normalized
    {| features := {["pipelines" := false]};
       tools := {| disabled := ["create_wiki"] |} |}.
Proof.
  intros k [b Hk]. cbn in Hk. apply lookup_singleton_Some in Hk as [<- _].
  apply (bool_decide_unpack _). vm_compute. reflexivity.
Qed.

Lemma isToolEnabled_spec_witness :
  isToolEnabled "trigger_pipeline"
    {| features := {["pipelines" := false]};
       tools := {| disabled := ["create_wiki"] |} |} = false.
Proof.
  refine (proj1 (isToolEnabled_spec "trigger_pipeline" _ normalized_pipelines_off)
            "pipelines" _ _).
  - vm_compute. reflexivity.
  - vm_compute. reflexivity.
Defined.

Lemma filter_negb_Permutation {A} (p : A → bool) (a : list A) :
  a ≡ₚ Js.filter p a ++ Js.filter (λ x, negb (p x)) a.
Proof.
  induction a as [|y a IH]; simpl; [done|].
  destruct (p y); simpl.
  - by constructor.
  - rewrite <-Permutation_middle. by constructor.
Qed.

(** C2. For every ordered list of tool names [L] and every configuration [c],
    [getEnabledTools L c] and [getDisabledTools L c] partition [L]: a name is
    in [L] exactly when it is in one of them, no name is in both, each is a
    subsequence of [L] (input order preserved), together they hold the
    elements of [L] with their multiplicities, and a name of [L] is in the
    enabled output exactly when [isToolEnabled] is [true] for it. *)
Theorem enabled_disabled_partition (L : list string) (c : ToolsConfig) :
  (∀ t, t ∈ L ↔ t ∈ getEnabledTools L c ∨ t ∈ getDisabledTools L c)
  ∧ (∀ t, ¬ (t ∈ getEnabledTools L c ∧ t ∈ getDisabledTools L c))
  ∧ sublist (getEnabledTools L c) L
  ∧ sublist (getDisabledTools L c) L
  ∧ L ≡ₚ getEnabledTools L c ++ getDisabledTools L c
  ∧ (∀ t, t ∈ getEnabledTools L c ↔ t ∈ L ∧ isToolEnabled t c = true)
  ∧ (∀ t, t ∈ getDisabledTools L c ↔ t ∈ L ∧ isToolEnabled t c = false).
Proof.
  unfold getEnabledTools, getDisabledTools. split_and!.
  - intros t. rewrite !filter_elem_of.
    destruct (isToolEnabled t c); naive_solver.
  - intros t. rewrite !filter_elem_of.
    destruct (isToolEnabled t c); naive_solver.
  - apply filter_sublist.
  - apply filter_sublist.
  - apply filter_negb_Permutation.
  - intros t. by rewrite filter_elem_of.
  - intros t. rewrite filter_elem_of, negb_true_iff. done.
Qed.

Example getEnabledTools_scenario :
  getEnabledTools ["trigger_pipeline"; "get_wiki_page"]
    {| features := {["pipelines" := false]}; tools := {| disabled := [] |} |}
  = ["get_wiki_page"].
Proof. vm_compute. reflexivity. Qed.

(** C3. The static catalog is disjoint: no tool name is in the tool lists of
    two different features (and none is listed twice); and the reverse index
    agrees with the forward mapping: [TOOL_TO_FEATURE[t] = f] for every tool
    [t] of [FEATURE_TOOLS[f]], and [TOOL_TO_FEATURE] has no entry for a tool
    that is in no feature's list. *)
Theorem catalog_disjoint_and_index_consistent :
  (∀ f g t, t ∈ tools_of FEATURE_TOOLS f → t ∈ tools_of FEATURE_TOOLS g → f = g)
  ∧ NoDup (all_tools FEATURE_TOOLS)
  ∧ (∀ f t, t ∈ tools_of FEATURE_TOOLS f → TOOL_TO_FEATURE !! t = Some f)
  ∧ (∀ t, (∀ f, t ∉ tools_of FEATURE_TOOLS f) → TOOL_TO_FEATURE !! t = None).
Proof.
  split_and!.
  - intros f g t Hf%TOOL_TO_FEATURE_owner Hg%TOOL_TO_FEATURE_owner. congruence.
  - apply FEATURE_TOOLS_NoDup.
  - intros f t. apply TOOL_TO_FEATURE_owner.
  - intros t Hnone. destruct (TOOL_TO_FEATURE !! t) as [f|] eqn:Hl; [|done].
    apply TOOL_TO_FEATURE_owner in Hl. by apply Hnone in Hl.
Qed.

Lemma catalog_disjoint_and_index_consistent_witness :
  TOOL_TO_FEATURE !! "trigger_pipeline" = Some "pipelines".
Proof.
  refine (proj1 (proj2 (proj2 catalog_disjoint_and_index_consistent))
            "pipelines" "trigger_pipeline" _).
  apply (bool_decide_unpack _). vm_compute. reflexivity.
Defined.

(** ** Loader: path resolution and the missing file *)

Lemma normalized_default : normalized DEFAULT_TOOLS_CONFIG.
Proof.
  intros k [b Hk]. unfold DEFAULT_TOOLS_CONFIG in Hk. cbn [features] in Hk.
  by rewrite lookup_empty in Hk.
Qed.

Section LoaderProperties.
Context {io_error : Type} (host : Host io_error).

(** C4. When the resolved path does not exist on disk, [loadToolsConfig]
    returns the default configuration [{ features: {}, tools: { disabled:
    [] } }], in which every feature and every tool is enabled, and throws
    nothing. *)
Theorem loadToolsConfig_missing_file (configPath : option string) :
  existsSync host (effectivePath host configPath) = false →
  loadToolsConfig host configPath
    = {| stderr := []; completion := inr DEFAULT_TOOLS_CONFIG |}
  ∧ DEFAULT_TOOLS_CONFIG = {| features := ∅; tools := {| disabled := [] |} |}
  ∧ (∀ f, f ∈ FEATURE_NAMES →
          isFeatureEnabled f DEFAULT_TOOLS_CONFIG = Js.Val true)
  ∧ (∀ t, isToolEnabled t DEFAULT_TOOLS_CONFIG = true).
Proof.
  intros Hmissing. split_and!.
  - unfold loadToolsConfig. by rewrite Hmissing.
  - reflexivity.
  - intros f Hf. by rewrite isFeatureEnabled_feature.
  - intros t. rewrite isToolEnabled_unfold by apply normalized_default.
    unfold DEFAULT_TOOLS_CONFIG. cbn [features tools disabled Js.includes negb].
    rewrite andb_true_r. destruct (TOOL_TO_FEATURE !! t); [|done].
    by rewrite lookup_empty.
Qed.

(** C7, amended. [loadToolsConfig] resolves the path in this order: the
    explicit path parameter when it is given and not empty; otherwise the
    value of [AZURE_DEVOPS_TOOLS_CONFIG] when it is set and not empty;
    otherwise [tools.config.json] joined to the working directory. *)
Theorem effectivePath_resolution (configPath : option string) :
  (∀ p, configPath = Some p → p ≠ "" → effectivePath host configPath = p)
  ∧ (configPath = None ∨ configPath = Some "" →
     ∀ e, env_AZURE_DEVOPS_TOOLS_CONFIG host = Some e → e ≠ "" →
          effectivePath host configPath = e)
  ∧ (configPath = None ∨ configPath = Some "" →
     env_AZURE_DEVOPS_TOOLS_CONFIG host = None
     ∨ env_AZURE_DEVOPS_TOOLS_CONFIG host = Some "" →
     effectivePath host configPath
       = path_join host (cwd host) "tools.config.json").
Proof.
  unfold effectivePath, or_else, Js.truthy_string. split_and!.
  - intros p -> Hp. by destruct (String.eqb_spec p "").
  - intros [->| ->] e -> He; cbn; by destruct (String.eqb_spec e "").
  - by intros [->| ->] [->| ->].
Qed.

(** C9. An empty string as the explicit path is not used: the call behaves
    as the call without a path. Resolution goes on to the environment
    variable, whose value is the path when it is set and not empty, and
    otherwise to the default file name in the working directory; so the call
    does what the call with that path given explicitly does, whatever the
    file system holds at the empty path. *)
Theorem loadToolsConfig_empty_path :
  effectivePath host (Some "") = effectivePath host None
  ∧ loadToolsConfig host (Some "") = loadToolsConfig host None
  ∧ (∀ e, env_AZURE_DEVOPS_TOOLS_CONFIG host = Some e → e ≠ "" →
          effectivePath host (Some "") = e
          ∧ loadToolsConfig host (Some "") = loadToolsConfig host (Some e))
  ∧ (env_AZURE_DEVOPS_TOOLS_CONFIG host = None
     ∨ env_AZURE_DEVOPS_TOOLS_CONFIG host = Some "" →
     effectivePath host (Some "")
     = path_join host (cwd host) "tools.config.json"
     ∧ loadToolsConfig host (Some "")
       = loadToolsConfig host
           (Some (path_join host (cwd host) "tools.config.json"))).
Proof.
  split_and!.
  - reflexivity.
  - reflexivity.
  - intros e He Hne.
    assert (Hpath : effectivePath host (Some "") = e).
    { unfold effectivePath, or_else, Js.truthy_string. rewrite He. cbn.
      by destruct (String.eqb_spec e ""). }
    assert (Hsame : effectivePath host (Some e) = e).
    { unfold effectivePath, or_else, Js.truthy_string.
      by destruct (String.eqb_spec e ""). }
    split; [done|]. unfold loadToolsConfig. by rewrite Hpath, Hsame.
  - intros Henv.
    assert (Hpath : effectivePath host (Some "")
                    = path_join host (cwd host) "tools.config.json").
    { unfold effectivePath, or_else. by destruct Henv as [-> | ->]. }
    assert (Hsame : effectivePath host
                      (Some (path_join host (cwd host) "tools.config.json"))
                    = path_join host (cwd host) "tools.config.json").
    { unfold effectivePath, or_else.
      destruct (Js.truthy_string _); [done|]. by destruct Henv as [-> | ->]. }
    split; [done|]. unfold loadToolsConfig. by rewrite Hpath, Hsame.
Qed.

End LoaderProperties.

Lemma loadToolsConfig_empty_path_witness :
  effectivePath
    (example_host (Some "/custom/path/config.json")
       [("", "{ not read }")] (λ _, inl "unused"))
    (Some "") = "/custom/path/config.json"
  ∧ loadToolsConfig
      (example_host (Some "/custom/path/config.json")
         [("", "{ not read }")] (λ _, inl "unused"))
      (Some "")
    = loadToolsConfig
        (example_host (Some "/custom/path/config.json")
           [("", "{ not read }")] (λ _, inl "unused"))
        (Some "/custom/path/config.json").
Proof.
  refine (proj1 (proj2 (proj2 (loadToolsConfig_empty_path _)))
            "/custom/path/config.json" _ _).
  - reflexivity.
  - discriminate.
Defined.

Lemma loadToolsConfig_missing_file_witness :
  loadToolsConfig (example_host None [] (λ _, inl "unused")) None
  = {| stderr := []; completion := inr DEFAULT_TOOLS_CONFIG |}.
Proof.
  refine (proj1 (loadToolsConfig_missing_file _ None _)).
  vm_compute. reflexivity.
Defined.

(** C7 as stated fails: an explicit path that is the empty string is given
    but not used; the environment variable is used instead. *)
Lemma effectivePath_empty_explicit_path :
  effectivePath (example_host (Some "/etc/tools.json") [] (λ _, inl ""))
    (Some "") = "/etc/tools.json"
  ∧ effectivePath (example_host (Some "/etc/tools.json") [] (λ _, inl ""))
      (Some "") ≠ "".
Proof. split; [reflexivity | discriminate]. Qed.

Lemma effectivePath_resolution_witness :
  effectivePath (example_host (Some "/etc/tools.json") [] (λ _, inl ""))
    (Some "/opt/cfg.json") = "/opt/cfg.json".
Proof.
  refine (proj1 (effectivePath_resolution _ (Some "/opt/cfg.json"))
            "/opt/cfg.json" _ _).
  - reflexivity.
  - discriminate.
Defined.

(** ** The zod combinators *)

Lemma z_default_optional {A} (type : Zod.ZodType A) (d : json)
    (path : list Zod.segment) (data : option json) :
  Zod.z_default (Zod.z_optional type) d path data
  = type path (Some (default d data)).
Proof.
  unfold Zod.z_default, Zod.z_optional.
  by destruct (type path _) as [issues [a|]].
Qed.

Lemma z_default_defined {A} (type : Zod.ZodType A) (d : json)
    (path : list Zod.segment) (data : option json) :
  Zod.z_default (NoUndefined0 := Zod.no_undefined_defined) type d path data
  = type path (Some (default d data)).
Proof.
  unfold Zod.z_default.
  by destruct (type path _) as [issues [a|]].
Qed.

(** The key and the value parser of [features], on one entry. *)
Lemma feature_key_parse (path : list Zod.segment) (k : string) :
  Zod.z_enum FEATURE_NAMES path (Some (JString k))
  = if Js.includes FEATURE_NAMES k then ([], Some k)
    else ([Zod.invalid_enum_value path FEATURE_NAMES k], None).
Proof. reflexivity. Qed.

Lemma feature_value_parse (path : list Zod.segment) (v : json) :
  Zod.z_boolean path (Some v)
  = match v with
    | JBoolean b => ([], Some b)
    | _ => ([Zod.invalid_type path "boolean" (Some v)], None)
    end.
Proof. by destruct v. Qed.

(** [mergeRecord]: the issues are those of every pair, in order; the status
    is aborted exactly when a key or a value aborted; the output holds keys
    that parsed and the keys it started from. *)
Lemma mergeRecord_issues {V}
    (pairs : list ((list Zod.ZodIssue * option string) * (list Zod.ZodIssue * option V)))
    (acc : gmap string V) :
  (Zod.mergeRecord pairs acc).1 = pairs ≫= (λ p, p.1.1 ++ p.2.1).
Proof.
  revert acc. induction pairs as [|[[ki k] [vi v]] pairs IH]; intros acc; [done|].
  cbn [Zod.mergeRecord mbind list_bind fst snd].
  match goal with
  | |- context [Zod.mergeRecord pairs ?a] =>
      specialize (IH a); destruct (Zod.mergeRecord pairs a) as [issues' r]
  end.
  cbn [fst] in *. by rewrite IH, <-app_assoc.
Qed.

Lemma mergeRecord_aborted {V}
    (pairs : list ((list Zod.ZodIssue * option string) * (list Zod.ZodIssue * option V)))
    (acc : gmap string V) :
  (Zod.mergeRecord pairs acc).2 = None ↔
  Exists (λ p, p.1.2 = None ∨ p.2.2 = None) pairs.
Proof.
  revert acc. induction pairs as [|[[ki k] [vi v]] pairs IH]; intros acc.
  - cbn. split; [done | by intros ?%Exists_nil].
  - cbn [Zod.mergeRecord].
    match goal with
    | |- context [Zod.mergeRecord pairs ?a] =>
        specialize (IH a); destruct (Zod.mergeRecord pairs a) as [issues' r]
    end.
    rewrite Exists_cons. cbn [fst snd] in *. rewrite <-IH.
    destruct k, v; naive_solver.
Qed.

Lemma mergeRecord_keys {V}
    (pairs : list ((list Zod.ZodIssue * option string) * (list Zod.ZodIssue * option V)))
    (acc m : gmap string V) (key : string) :
  (Zod.mergeRecord pairs acc).2 = Some m → is_Some (m !! key) →
  is_Some (acc !! key) ∨ ∃ p, p ∈ pairs ∧ p.1.2 = Some key.
Proof.
  revert acc. induction pairs as [|[[ki k] [vi v]] pairs IH]; intros acc.
  - cbn. intros [= ->]. by left.
  - cbn [Zod.mergeRecord].
    match goal with
    | |- context [Zod.mergeRecord pairs ?a] =>
        specialize (IH a); destruct (Zod.mergeRecord pairs a) as [issues' r]
    end.
    cbn [fst snd] in *. destruct k as [k|], v as [v|]; try done.
    intros Hr Hkey. destruct (IH Hr Hkey) as [Hacc|(p & Hp & Hpk)].
    + destruct (String.eqb k "__proto__"); [by left|].
      destruct (decide (k = key)) as [->|Hne].
      * right. eexists. split; [by left | done].
      * left. by rewrite lookup_insert_ne in Hacc.
    + right. exists p. split; [by right | done].
Qed.

(** [mergeArray]: likewise for the elements of an array. *)
Lemma mergeArray_issues {A} (results : list (list Zod.ZodIssue * option A)) :
  (Zod.mergeArray results).1 = results ≫= fst.
Proof.
  induction results as [|[issues r] results IH]; [done|].
  cbn [Zod.mergeArray mbind list_bind fst].
  destruct (Zod.mergeArray results) as [issues' rs]. cbn [fst] in *.
  by rewrite IH.
Qed.

Lemma mergeArray_aborted {A} (results : list (list Zod.ZodIssue * option A)) :
  (Zod.mergeArray results).2 = None ↔ Exists (λ r, r.2 = None) results.
Proof.
  induction results as [|[issues r] results IH].
  - cbn. split; [done | by intros ?%Exists_nil].
  - cbn [Zod.mergeArray]. destruct (Zod.mergeArray results) as [issues' rs].
    rewrite Exists_cons. cbn [fst snd] in *. rewrite <-IH.
    destruct r, rs; naive_solver.
Qed.

Lemma mergeArray_valid {A} (results : list (list Zod.ZodIssue * option A))
    (outputs : list A) :
  results = (λ a, ([], Some a)) <$> outputs →
  Zod.mergeArray results = ([], Some outputs).
Proof.
  intros ->. induction outputs as [|a outputs IH]; [done|].
  rewrite fmap_cons. cbn [Zod.mergeArray]. by rewrite IH.
Qed.

(** ** Coherence of the combinators *)

Section Coherence.
Context {A B : Type}.
Implicit Types (type : Zod.ZodType A) (other : Zod.ZodType B).

Lemma coherent_string : coherent Zod.z_string.
Proof. intros path [[]|]; cbn; naive_solver. Qed.

Lemma coherent_boolean : coherent Zod.z_boolean.
Proof. intros path [[]|]; cbn; naive_solver. Qed.

Lemma coherent_enum (values : list string) : coherent (Zod.z_enum values).
Proof.
  intros path [[| | |s| |]|]; cbn; try naive_solver.
  destruct (Js.includes values s); cbn; naive_solver.
Qed.

Lemma coherent_array type : coherent type → coherent (Zod.z_array type).
Proof.
  intros Hc path [[| | | |items|]|]; cbn; try naive_solver.
  rewrite mergeArray_aborted, mergeArray_issues.
  assert (Hall : Forall (λ r : list Zod.ZodIssue * option A, r.2 = None ↔ r.1 ≠ [])
                   (imap (λ i item, type (path ++ [Zod.Index i]) (Some item)) items)).
  { apply Forall_forall. intros r (i & x & -> & _)%elem_of_lookup_imap. apply Hc. }
  induction Hall as [|[issues r] results Hr _ IH].
  - cbn. split; [by intros ?%Exists_nil | done].
  - rewrite Exists_cons, IH. cbn [mbind list_bind fst snd] in *.
    rewrite Hr. destruct issues; cbn; naive_solver.
Qed.

Lemma coherent_record (keyType : Zod.ZodType string) type :
  coherent keyType → coherent type → coherent (Zod.z_record keyType type).
Proof.
  intros Hk Hv path [[| | | | |entries]|]; cbn; try naive_solver.
  rewrite mergeRecord_aborted, mergeRecord_issues.
  induction entries as [|[k v] entries IH].
  - cbn. split; [by intros ?%Exists_nil | done].
  - cbn [map]. rewrite Exists_cons, IH. cbn [mbind list_bind fst snd].
    rewrite (Hk _ _), (Hv _ _).
    destruct (keyType _ _).1, (type _ _).1; cbn; naive_solver.
Qed.

Lemma coherent_default_optional type (d : json) :
  coherent type → coherent (Zod.z_default (Zod.z_optional type) d).
Proof. intros Hc path data. rewrite z_default_optional. apply Hc. Qed.

Lemma coherent_default type (d : json) :
  coherent type →
  coherent (Zod.z_default (NoUndefined0 := Zod.no_undefined_defined) type d).
Proof. intros Hc path data. rewrite z_default_defined. apply Hc. Qed.

Lemma coherent_object1 {R} (key : string) type (build : A → R) :
  coherent type → coherent (Zod.z_object1 key type build).
Proof.
  intros Hc path [[| | | | |entries]|]; cbn; try naive_solver.
  specialize (Hc (path ++ [Zod.Key key]) (field entries key)).
  destruct (type _ _) as [issues [a|]]; cbn in *; naive_solver.
Qed.

Lemma coherent_object2 {R} (key1 key2 : string) type other (build : A → B → R) :
  coherent type → coherent other →
  coherent (Zod.z_object2 key1 type key2 other build).
Proof.
  intros Hc1 Hc2 path [[| | | | |entries]|]; cbn; try naive_solver.
  specialize (Hc1 (path ++ [Zod.Key key1]) (field entries key1)).
  specialize (Hc2 (path ++ [Zod.Key key2]) (field entries key2)).
  destruct (type _ _) as [issues1 [a|]], (other _ _) as [issues2 [b|]];
    cbn in *; destruct issues1, issues2; naive_solver.
Qed.

End Coherence.

Lemma coherent_features_schema : coherent features_schema.
Proof.
  apply coherent_default_optional, coherent_record;
    [apply coherent_enum | apply coherent_boolean].
Qed.

Lemma coherent_disabled_schema : coherent disabled_schema.
Proof. apply coherent_default_optional, coherent_array, coherent_string. Qed.

Lemma coherent_tools_schema : coherent tools_schema.
Proof.
  apply coherent_default_optional, coherent_object1, coherent_disabled_schema.
Qed.

Lemma ToolsConfigSchema_parts :
  ToolsConfigSchema
  = Zod.z_default
      (Zod.z_object2 "features" features_schema "tools" tools_schema
         Build_ToolsConfig)
      (JObject []).
Proof. reflexivity. Qed.

Lemma coherent_ToolsConfigSchema : coherent ToolsConfigSchema.
Proof.
  rewrite ToolsConfigSchema_parts.
  apply coherent_default, coherent_object2;
    [apply coherent_features_schema | apply coherent_tools_schema].
Qed.

(** ** The schema, evaluated part by part *)

Lemma ToolsConfigSchema_object (es : list (string * json)) :
  ToolsConfigSchema [] (Some (JObject es))
  = ((features_schema [Zod.Key "features"] (field es "features")).1
     ++ (tools_schema [Zod.Key "tools"] (field es "tools")).1,
     match (features_schema [Zod.Key "features"] (field es "features")).2,
           (tools_schema [Zod.Key "tools"] (field es "tools")).2 with
     | Some a, Some b => Some (Build_ToolsConfig a b)
     | _, _ => None
     end).
Proof.
  rewrite ToolsConfigSchema_parts, z_default_defined.
  cbn [default from_option id Zod.z_object2 app].
  by destruct (features_schema _ _), (tools_schema _ _).
Qed.

Lemma ToolsConfigSchema_not_object (raw : json) :
  is_object raw = false →
  ToolsConfigSchema [] (Some raw)
  = ([Zod.invalid_type [] "object" (Some raw)], None).
Proof.
  intros Hraw. rewrite ToolsConfigSchema_parts, z_default_defined.
  by destruct raw.
Qed.

Lemma features_schema_eval (path : list Zod.segment) (data : option json) :
  features_schema path data
  = match data with
    | None => ([], Some ∅)
    | Some (JObject kvs) =>
        Zod.mergeRecord
          ((λ kv : string * json,
              (Zod.z_enum FEATURE_NAMES (path ++ [Zod.Key kv.1]) (Some (JString kv.1)),
               Zod.z_boolean (path ++ [Zod.Key kv.1]) (Some kv.2))) <$> kvs)
          ∅
    | Some v => ([Zod.invalid_type path "object" (Some v)], None)
    end.
Proof.
  unfold features_schema. rewrite z_default_optional.
  by destruct data as [[]|].
Qed.

Lemma disabled_schema_eval (path : list Zod.segment) (data : option json) :
  disabled_schema path data
  = match data with
    | None => ([], Some [])
    | Some (JArray items) =>
        Zod.mergeArray
          (imap (λ i item, Zod.z_string (path ++ [Zod.Index i]) (Some item)) items)
    | Some v => ([Zod.invalid_type path "array" (Some v)], None)
    end.
Proof.
  unfold disabled_schema. rewrite z_default_optional.
  by destruct data as [[]|].
Qed.

Lemma tools_schema_eval (path : list Zod.segment) (data : option json) :
  tools_schema path data
  = match data with
    | None => ([], Some {| disabled := [] |})
    | Some (JObject ts) =>
        let d := disabled_schema (path ++ [Zod.Key "disabled"])
                   (field ts "disabled") in
        (d.1, Build_ToolsSection <$> d.2)
    | Some v => ([Zod.invalid_type path "object" (Some v)], None)
    end.
Proof.
  unfold tools_schema. rewrite z_default_optional.
  destruct data as [[| | | | |ts]|]; try done.
  cbn [default from_option id Zod.z_object1].
  by destruct (disabled_schema _ _).
Qed.

(** The issues of each part. *)
Lemma features_schema_issue (path : list Zod.segment) (data : option json)
    (issue : Zod.ZodIssue) :
  issue ∈ (features_schema path data).1 ↔
  (∃ v, data = Some v ∧ is_object v = false
        ∧ issue = Zod.invalid_type path "object" (Some v))
  ∨ (∃ kvs k v, data = Some (JObject kvs) ∧ (k, v) ∈ kvs
       ∧ (((k ∉ FEATURE_NAMES)
           ∧ issue = Zod.invalid_enum_value (path ++ [Zod.Key k]) FEATURE_NAMES k)
          ∨ (is_boolean v = false
             ∧ issue = Zod.invalid_type (path ++ [Zod.Key k]) "boolean" (Some v)))).
Proof.
  rewrite features_schema_eval.
  destruct data as [v|]; [|cbn; rewrite elem_of_nil; naive_solver].
  destruct v as [|b|n|s|items|kvs];
    try (cbn; rewrite list_elem_of_singleton; naive_solver).
  rewrite mergeRecord_issues, list_elem_of_bind.
  setoid_rewrite list_elem_of_fmap. cbn [fst snd]. split.
  - intros (p & Hissue & [k v] & -> & Hin). right. exists kvs, k, v.
    split_and!; [done..|]. cbn [fst snd] in Hissue.
    rewrite feature_key_parse, feature_value_parse in Hissue.
    destruct (Js.includes FEATURE_NAMES k) eqn:Hk;
      [|apply includes_false in Hk];
      destruct v; cbn in Hissue;
      repeat (apply elem_of_cons in Hissue as [->|Hissue]);
      try (by apply elem_of_nil in Hissue); auto.
  - intros [(v & [= <-] & Hv & _)|(? & k & v & [= <-] & Hin & Hcase)]; [done|].
    eexists. split; [|exists (k, v); split; [reflexivity | done]].
    cbn [fst snd]. rewrite feature_key_parse, feature_value_parse.
    destruct Hcase as [[Hk ->]|[Hv ->]].
    + apply includes_false in Hk. rewrite Hk. cbn. left.
    + destruct (Js.includes FEATURE_NAMES k), v; try done; cbn;
        rewrite ?elem_of_cons; auto.
Qed.

Lemma string_issue (path : list Zod.segment) (v : json) (issue : Zod.ZodIssue) :
  issue ∈ (Zod.z_string path (Some v)).1 ↔
  is_string v = false ∧ issue = Zod.invalid_type path "string" (Some v).
Proof.
  destruct v; cbn; rewrite ?list_elem_of_singleton, ?elem_of_nil; naive_solver.
Qed.

Lemma disabled_schema_issue (path : list Zod.segment) (data : option json)
    (issue : Zod.ZodIssue) :
  issue ∈ (disabled_schema path data).1 ↔
  (∃ v, data = Some v ∧ is_array v = false
        ∧ issue = Zod.invalid_type path "array" (Some v))
  ∨ (∃ items i v, data = Some (JArray items) ∧ items !! i = Some v
       ∧ is_string v = false
       ∧ issue = Zod.invalid_type (path ++ [Zod.Index i]) "string" (Some v)).
Proof.
  rewrite disabled_schema_eval.
  destruct data as [v|]; [|cbn; rewrite elem_of_nil; naive_solver].
  destruct v as [|b|n|s|items|kvs];
    try (cbn; rewrite list_elem_of_singleton; naive_solver).
  rewrite mergeArray_issues, list_elem_of_bind.
  setoid_rewrite elem_of_lookup_imap. split.
  - intros (r & Hissue & i & v & -> & Hi).
    apply string_issue in Hissue as [Hv ->]. right. by exists items, i, v.
  - intros [(v & [= <-] & Hv & _)|(? & i & v & [= <-] & Hi & Hv & ->)]; [done|].
    eexists. split; [|by exists i, v]. by apply string_issue.
Qed.

Lemma tools_schema_issue (path : list Zod.segment) (data : option json)
    (issue : Zod.ZodIssue) :
  issue ∈ (tools_schema path data).1 ↔
  (∃ v, data = Some v ∧ is_object v = false
        ∧ issue = Zod.invalid_type path "object" (Some v))
  ∨ (∃ ts, data = Some (JObject ts)
       ∧ issue ∈ (disabled_schema (path ++ [Zod.Key "disabled"])
                    (field ts "disabled")).1).
Proof.
  rewrite tools_schema_eval.
  destruct data as [v|]; [|cbn; rewrite elem_of_nil; naive_solver].
  destruct v as [|b|n|s|items|ts];
    try (cbn; rewrite list_elem_of_singleton; naive_solver).
  cbn [fst]. naive_solver.
Qed.

(** ** The issues of the schema are the violations of the specification *)

Lemma schema_issue_violation (raw : json) (issue : Zod.ZodIssue) :
  issue ∈ schema_issues raw → violation raw (Zod.path issue).
Proof.
  unfold schema_issues. destruct (is_object raw) eqn:Hraw.
  - destruct raw as [| | | | |es]; try done.
    rewrite ToolsConfigSchema_object. cbn [fst].
    intros [Hf|Ht]%elem_of_app.
    + apply features_schema_issue in Hf
        as [(v & Hv & Hobj & ->)|(kvs & k & v & Hkvs & Hin & [[Hk ->]|[Hb ->]])].
      * by eapply features_not_object.
      * by eapply feature_key_unknown.
      * by eapply feature_value_not_boolean.
    + apply tools_schema_issue in Ht as [(v & Hv & Hobj & ->)|(ts & Hts & Hd)].
      * by eapply tools_not_object.
      * apply disabled_schema_issue in Hd
          as [(v & Hv & Harr & ->)|(items & i & v & Hitems & Hi & Hs & ->)].
        -- by eapply disabled_not_array.
        -- by eapply disabled_item_not_string.
  - rewrite ToolsConfigSchema_not_object by done.
    intros ->%list_elem_of_singleton. by constructor.
Qed.

Lemma violation_schema_issue (raw : json) (path : list Zod.segment) :
  violation raw path →
  ∃ issue, issue ∈ schema_issues raw ∧ Zod.path issue = path.
Proof.
  unfold schema_issues.
  destruct 1 as [raw Hraw|es v Hv Hobj|es kvs k v Hkvs Hin Hk|es kvs k v Hkvs Hin Hb
                |es v Hv Hobj|es ts v Hts Hv Harr|es ts items i v Hts Hitems Hi Hs];
    rewrite ?ToolsConfigSchema_object; cbn [fst].
  - rewrite ToolsConfigSchema_not_object by done. eexists. split; [left | done].
  - exists (Zod.invalid_type [Zod.Key "features"] "object" (Some v)).
    split; [|by destruct v]. apply elem_of_app. left.
    apply features_schema_issue. left. by exists v.
  - exists (Zod.invalid_enum_value [Zod.Key "features"; Zod.Key k] FEATURE_NAMES k).
    split; [|done]. apply elem_of_app. left.
    apply features_schema_issue. right. exists kvs, k, v. by auto.
  - exists (Zod.invalid_type [Zod.Key "features"; Zod.Key k] "boolean" (Some v)).
    split; [|by destruct v]. apply elem_of_app. left.
    apply features_schema_issue. right. exists kvs, k, v. by auto.
  - exists (Zod.invalid_type [Zod.Key "tools"] "object" (Some v)).
    split; [|by destruct v]. apply elem_of_app. right.
    apply tools_schema_issue. left. by exists v.
  - exists (Zod.invalid_type [Zod.Key "tools"; Zod.Key "disabled"] "array" (Some v)).
    split; [|by destruct v]. apply elem_of_app. right.
    apply tools_schema_issue. right. exists ts. split; [done|].
    apply disabled_schema_issue. left. by exists v.
  - exists (Zod.invalid_type
              [Zod.Key "tools"; Zod.Key "disabled"; Zod.Index i] "string" (Some v)).
    split; [|by destruct v]. apply elem_of_app. right.
    apply tools_schema_issue. right. exists ts. split; [done|].
    apply disabled_schema_issue. right. by exists items, i, v.
Qed.

(** ** Parsing with the schema *)

Lemma parse_throws (raw : json) (issues : list Zod.ZodIssue) :
  Zod.parse ToolsConfigSchema (Some raw) = inl issues ↔
  issues = schema_issues raw ∧ issues ≠ [].
Proof.
  unfold Zod.parse, schema_issues.
  pose proof (coherent_ToolsConfigSchema [] (Some raw)) as Hc.
  destruct (ToolsConfigSchema [] (Some raw)) as [issues' [cfg|]]; cbn in *.
  - split; [done|]. intros [-> Hne]. destruct issues'; [done|]. by apply Hc in Hne.
  - split; [intros [= <-] | intros [-> _]; done]. split; [done | by apply Hc].
Qed.

Lemma parse_returns (raw : json) (cfg : ToolsConfig) :
  Zod.parse ToolsConfigSchema (Some raw) = inr cfg → schema_issues raw = [].
Proof.
  unfold Zod.parse, schema_issues.
  pose proof (coherent_ToolsConfigSchema [] (Some raw)) as Hc.
  destruct (ToolsConfigSchema [] (Some raw)) as [issues' [cfg'|]]; cbn in *; [|done].
  intros _. destruct issues' as [|issue rest]; [done|].
  assert (Hnone : Some cfg' = None) by (by apply Hc). discriminate Hnone.
Qed.

Lemma parse_throws_iff_violation (raw : json) :
  (∃ issues, Zod.parse ToolsConfigSchema (Some raw) = inl issues) ↔
  ∃ path, violation raw path.
Proof.
  split.
  - intros (issues & [-> Hne]%parse_throws).
    destruct (schema_issues raw) as [|issue rest] eqn:Hi; [done|].
    exists (Zod.path issue). apply schema_issue_violation. rewrite Hi. left.
  - intros (path & (issue & Hin & _)%violation_schema_issue).
    exists (schema_issues raw). apply parse_throws. split; [done|].
    intros Hnil. rewrite Hnil in Hin. by apply elem_of_nil in Hin.
Qed.

Lemma features_schema_normalized (path : list Zod.segment) (data : option json)
    (m : gmap string bool) (key : string) :
  (features_schema path data).2 = Some m → is_Some (m !! key) →
  key ∈ FEATURE_NAMES.
Proof.
  rewrite features_schema_eval. destruct data as [[| | | | |kvs]|]; try done.
  - intros Hm Hkey.
    destruct (mergeRecord_keys _ _ _ _ Hm Hkey) as [Hacc|(p & Hp & Hpk)].
    + rewrite lookup_empty in Hacc. by destruct Hacc.
    + apply list_elem_of_fmap in Hp as ([k v] & -> & _). cbn [fst snd] in Hpk.
      rewrite feature_key_parse in Hpk.
      destruct (Js.includes FEATURE_NAMES k) eqn:Hk; [|done].
      cbn in Hpk. injection Hpk as <-. by apply includes_elem_of.
  - cbn. intros [= <-] Hkey. rewrite lookup_empty in Hkey. by destruct Hkey.
Qed.

Lemma parse_normalized (data : option json) (cfg : ToolsConfig) :
  Zod.parse ToolsConfigSchema data = inr cfg → normalized cfg.
Proof.
  unfold Zod.parse. rewrite ToolsConfigSchema_parts, z_default_defined.
  destruct (default (JObject []) data) as [| | | | |es] eqn:Hd; try done.
  rewrite <-(z_default_defined _ (JObject []) [] (Some (JObject es))).
  rewrite <-ToolsConfigSchema_parts, ToolsConfigSchema_object.
  destruct (features_schema _ _).2 as [m|] eqn:Hm; [|done].
  destruct (tools_schema _ _).2 as [t|]; [|done].
  intros [= <-] key Hkey. by eapply features_schema_normalized.
Qed.

Lemma field_filter_known (es : list (string * json)) (key : string) :
  key = "features" ∨ key = "tools" →
  field (Js.filter known_key es) key = field es key.
Proof.
  intros Hkey. induction es as [|[k v] es IH]; [done|].
  cbn [Js.filter field]. unfold known_key at 1. cbn [fst].
  destruct (String.eqb_spec k key) as [->|Hne].
  - destruct Hkey as [-> | ->]; cbn; by rewrite ?String.eqb_refl.
  - destruct (_ || _); [|done]. cbn [field].
    by destruct (String.eqb_spec k key).
Qed.

Lemma disabled_schema_strings (path : list Zod.segment) (ds : list string) :
  disabled_schema path (Some (JArray (JString <$> ds))) = ([], Some ds).
Proof.
  rewrite disabled_schema_eval. apply mergeArray_valid.
  rewrite imap_fmap. apply imap_const.
Qed.

(** C8. The schema rejects a [features] object that holds a key outside the
    closed feature enumeration or a value that is not a boolean, with an issue
    at that key, so that every configuration it returns has feature keys of
    the enumeration only; [tools.disabled] accepts any strings, registered in
    the catalog or not; and an absent top-level value and the empty object
    both normalize to [{ features: {}, tools: { disabled: [] } }]. *)
Theorem schema_validation :
  (∀ es kvs k v,
     field es "features" = Some (JObject kvs) → (k, v) ∈ kvs →
     (k ∉ FEATURE_NAMES) ∨ is_boolean v = false →
     ∃ issues issue,
       Zod.parse ToolsConfigSchema (Some (JObject es)) = inl issues
       ∧ issue ∈ issues
       ∧ Zod.path issue = [Zod.Key "features"; Zod.Key k])
  ∧ (∀ ds,
       Zod.parse ToolsConfigSchema
         (Some (JObject [("tools", JObject [("disabled", JArray (JString <$> ds))])]))
       = inr {| features := ∅; tools := {| disabled := ds |} |})
  ∧ (∀ es ts ds,
       field es "tools" = Some (JObject ts) →
       field ts "disabled" = Some (JArray (JString <$> ds)) →
       match Zod.parse ToolsConfigSchema (Some (JObject es)) with
       | inr cfg => disabled (tools cfg) = ds
       | inl issues =>
           ∀ issue, issue ∈ issues →
                    ∃ rest, Zod.path issue = Zod.Key "features" :: rest
       end)
  ∧ (∀ data cfg, Zod.parse ToolsConfigSchema data = inr cfg → normalized cfg)
  ∧ Zod.parse ToolsConfigSchema None
    = inr {| features := ∅; tools := {| disabled := [] |} |}
  ∧ Zod.parse ToolsConfigSchema (Some (JObject []))
    = inr {| features := ∅; tools := {| disabled := [] |} |}.
Proof.
  split_and!.
  - intros es kvs k v Hkvs Hin Hbad.
    assert (Hv : violation (JObject es) [Zod.Key "features"; Zod.Key k]).
    { destruct Hbad; [by eapply feature_key_unknown
                     | by eapply feature_value_not_boolean]. }
    apply violation_schema_issue in Hv as (issue & Hissue & Hpath).
    exists (schema_issues (JObject es)), issue. split_and!; [|done..].
    apply parse_throws. split; [done|].
    intros Hnil. rewrite Hnil in Hissue. by apply elem_of_nil in Hissue.
  - intros ds. unfold Zod.parse. rewrite ToolsConfigSchema_object.
    cbn [field String.eqb Ascii.eqb Bool.eqb].
    rewrite tools_schema_eval. cbn [field String.eqb Ascii.eqb Bool.eqb].
    by rewrite disabled_schema_strings.
  - intros es ts ds Hts Hds. unfold Zod.parse.
    rewrite ToolsConfigSchema_object, Hts, (tools_schema_eval _ (Some _)), Hds.
    rewrite disabled_schema_strings. cbn [fst snd fmap option_fmap option_map].
    rewrite app_nil_r.
    destruct (features_schema _ _) as [issues [m|]] eqn:Hf; cbn [fst snd]; [done|].
    intros issue Hissue.
    assert (Hin : issue ∈ (features_schema [Zod.Key "features"]
                             (field es "features")).1) by by rewrite Hf.
    apply features_schema_issue in Hin
      as [(v & _ & _ & ->)|(kvs & k & v & _ & _ & [[_ ->]|[_ ->]])];
      eexists; reflexivity.
  - apply parse_normalized.
  - reflexivity.
  - reflexivity.
Qed.

Lemma schema_validation_witness :
  ∃ issues issue,
    Zod.parse ToolsConfigSchema
      (Some (JObject [("features", JObject [("invalid-feature", JBoolean true)])]))
    = inl issues
    ∧ issue ∈ issues
    ∧ Zod.path issue = [Zod.Key "features"; Zod.Key "invalid-feature"].
Proof.
  refine (proj1 schema_validation _ [("invalid-feature", JBoolean true)]
            "invalid-feature" (JBoolean true) _ _ _).
  - reflexivity.
  - left.
  - left. apply (bool_decide_unpack _). vm_compute. reflexivity.
Defined.

Lemma parse_skip_unknown (extra es : list (string * json)) :
  Forall (λ kv, known_key kv = false) extra →
  Zod.parse ToolsConfigSchema (Some (JObject (extra ++ es)))
  = Zod.parse ToolsConfigSchema (Some (JObject es)).
Proof.
  intros Hextra. unfold Zod.parse. rewrite !ToolsConfigSchema_object.
  assert (Hfield : ∀ key, key = "features" ∨ key = "tools" →
                          field (extra ++ es) key = field es key).
  { intros key Hkey. induction Hextra as [|[k v] extra Hk _ IH]; [done|].
    cbn [app field]. unfold known_key in Hk. cbn [fst] in Hk.
    apply orb_false_iff in Hk as [Hf Ht].
    destruct Hkey as [-> | ->]; [by rewrite Hf | by rewrite Ht]. }
  by rewrite !Hfield by auto.
Qed.

(** C10. Unknown top-level keys do not make validation fail and do not reach
    the result. An object of unknown keys only validates, to the default
    configuration; unknown keys put before a [tools] entry leave it validating
    to the configuration with that [disabled] list; in general an object
    validates exactly when its known part has no violation, and then to the
    configuration its known part validates to. *)
Theorem unknown_top_level_keys_stripped (es : list (string * json)) :
  Zod.parse ToolsConfigSchema (Some (JObject es))
  = Zod.parse ToolsConfigSchema (Some (JObject (Js.filter known_key es)))
  ∧ (Forall (λ kv, known_key kv = false) es →
     Zod.parse ToolsConfigSchema (Some (JObject es))
     = inr {| features := ∅; tools := {| disabled := [] |} |})
  ∧ (∀ ds,
       Forall (λ kv, known_key kv = false) es →
       Zod.parse ToolsConfigSchema
         (Some (JObject
                  (es ++ [("tools",
                           JObject [("disabled", JArray (JString <$> ds))])])))
       = inr {| features := ∅; tools := {| disabled := ds |} |})
  ∧ (∀ k v cfg,
       known_key (k, v) = false →
       Zod.parse ToolsConfigSchema (Some (JObject es)) = inr cfg →
       Zod.parse ToolsConfigSchema (Some (JObject ((k, v) :: es))) = inr cfg)
  ∧ ((∃ cfg, Zod.parse ToolsConfigSchema (Some (JObject es)) = inr cfg) ↔
     ∀ where_, ¬ violation (JObject (Js.filter known_key es)) where_)
  ∧ (∀ cfg,
       Zod.parse ToolsConfigSchema (Some (JObject (Js.filter known_key es)))
       = inr cfg →
       Zod.parse ToolsConfigSchema (Some (JObject es)) = inr cfg).
Proof.
  assert (Heq : ∀ es' : list (string * json),
            Zod.parse ToolsConfigSchema (Some (JObject es'))
            = Zod.parse ToolsConfigSchema
                (Some (JObject (Js.filter known_key es')))).
  { intros es'. unfold Zod.parse. rewrite !ToolsConfigSchema_object.
    by rewrite !field_filter_known by auto. }
  split_and!.
  - apply Heq.
  - intros Hall. rewrite <-(app_nil_r es).
    by rewrite parse_skip_unknown.
  - intros ds Hall. rewrite parse_skip_unknown by done.
    unfold Zod.parse. rewrite ToolsConfigSchema_object.
    cbn [field String.eqb Ascii.eqb Bool.eqb].
    rewrite tools_schema_eval. cbn [field String.eqb Ascii.eqb Bool.eqb].
    by rewrite disabled_schema_strings.
  - intros k v cfg Hk Hcfg.
    change ((k, v) :: es) with ([(k, v)] ++ es).
    rewrite parse_skip_unknown; [done|]. by constructor.
  - rewrite (Heq es). split.
    + intros [cfg Hcfg] where_ Hv.
      assert (Hthrows : ∃ issues,
                Zod.parse ToolsConfigSchema
                  (Some (JObject (Js.filter known_key es))) = inl issues)
        by (apply parse_throws_iff_violation; eauto).
      destruct Hthrows as [issues Hi]. congruence.
    + intros Hvalid.
      destruct (Zod.parse ToolsConfigSchema
                  (Some (JObject (Js.filter known_key es))))
        as [issues|cfg] eqn:Hp; [|by exists cfg].
      exfalso.
      assert (Hv : ∃ where_, violation (JObject (Js.filter known_key es)) where_)
        by (apply parse_throws_iff_violation; eauto).
      destruct Hv as [where_ Hv]. by apply (Hvalid where_).
  - intros cfg Hcfg. by rewrite Heq.
Qed.

Lemma unknown_top_level_keys_stripped_witness :
  Zod.parse ToolsConfigSchema
    (Some (JObject [("$schema", JString "./tools.schema.json");
                    ("features", JObject [("pipelines", JBoolean false)]);
                    ("tools", JObject [("disabled", JArray [JString "get_me"])])]))
  = inr {| features := {["pipelines" := false]};
           tools := {| disabled := ["get_me"] |} |}.
Proof.
  refine (proj1 (proj2 (proj2 (proj2
            (unknown_top_level_keys_stripped
               [("features", JObject [("pipelines", JBoolean false)]);
                ("tools", JObject [("disabled", JArray [JString "get_me"])])]))))
            "$schema" (JString "./tools.schema.json") _ _ _).
  - reflexivity.
  - vm_compute. reflexivity.
Defined.

Example unknown_top_level_key_parses :
  Zod.parse ToolsConfigSchema
    (Some (JObject [("$schema", JString "./tools.schema.json");
                    ("features", JObject [("pipelines", JBoolean false)])]))
  = inr {| features := {["pipelines" := false]};
           tools := {| disabled := [] |} |}.
Proof. vm_compute. reflexivity. Qed.

(** ** Loader: failures *)

Lemma ParseError_not_ConfigValidationError {io_error} (path message : string)
    (path' : string) (issues : list Zod.ZodIssue) :
  @ParseError io_error path message ≠ ConfigValidationError path' issues.
Proof. unfold ParseError, ConfigValidationError. cbn. discriminate. Qed.

Lemma format_issue_line (issue : Zod.ZodIssue) :
  format_issue issue
  = "  - " +:+ Js.join "." (segment_to_string <$> Zod.path issue) +:+ ": "
    +:+ Zod.message issue.
Proof. reflexivity. Qed.

Section LoaderFailures.
Context {io_error : Type} (host : Host io_error).

Lemma try_load_eval (path : string) :
  try_load host path
  = match readFileSync host path with
    | inl e => inl (IoError e)
    | inr content =>
        match JSON_parse host content with
        | inl message => inl (SyntaxError message)
        | inr raw =>
            match Zod.parse ToolsConfigSchema (Some raw) with
            | inl issues => inl (ZodError issues)
            | inr cfg => inr cfg
            end
        end
    end.
Proof.
  unfold try_load.
  destruct (readFileSync host path) as [e|content]; [done|]. cbn.
  destruct (JSON_parse host content) as [message|raw]; [done|]. cbn.
  by destruct (Zod.parse ToolsConfigSchema (Some raw)).
Qed.

(** C5. For an existing configuration file, [loadToolsConfig] throws a
    [ParseError] with the path and the parser's message exactly when the
    contents are not valid JSON; it throws a [ConfigValidationError] with the
    path and one line per issue (dotted path, then message) exactly when the
    contents are valid JSON that violates the schema, and then every violation
    has its line and every line is a violation; and an error of reading the
    file is thrown unchanged. *)
Theorem loadToolsConfig_failures (configPath : option string) :
  existsSync host (effectivePath host configPath) = true →
  let path := effectivePath host configPath in
  let result := completion (loadToolsConfig host configPath) in
  (∀ content message,
     readFileSync host path = inr content →
     JSON_parse host content = inl message →
     result = inl (ParseError path message))
  ∧ ((∃ message, result = inl (ParseError path message)) ↔
     ∃ content message,
       readFileSync host path = inr content
       ∧ JSON_parse host content = inl message)
  ∧ (∀ content raw,
       readFileSync host path = inr content →
       JSON_parse host content = inr raw →
       (∃ where_, violation raw where_) →
       result = inl (ConfigValidationError path (schema_issues raw))
       ∧ (∀ where_, violation raw where_ →
            ∃ issue, issue ∈ schema_issues raw ∧ Zod.path issue = where_
                     ∧ format_issue issue ∈ format_issue <$> schema_issues raw)
       ∧ (∀ issue, issue ∈ schema_issues raw → violation raw (Zod.path issue)))
  ∧ ((∃ issues, result = inl (ConfigValidationError path issues)) ↔
     ∃ content raw where_,
       readFileSync host path = inr content
       ∧ JSON_parse host content = inr raw
       ∧ violation raw where_)
  ∧ (∀ e, readFileSync host path = inl e → result = inl (IoError e))
  ∧ (∀ issue,
       format_issue issue
       = "  - " +:+ Js.join "." (segment_to_string <$> Zod.path issue) +:+ ": "
         +:+ Zod.message issue).
Proof.
  intros Hexists path result.
  assert (Hres : result = match try_load host path with
                             | inl error => inl (catch path error)
                             | inr cfg => inr cfg
                             end).
  { unfold result, loadToolsConfig, path. rewrite Hexists. cbn [negb].
    by destruct (try_load _ _). }
  rewrite try_load_eval in Hres. clearbody result. split_and!.
  - intros content message Hread Hparse. by rewrite Hres, Hread, Hparse.
  - split.
    + intros [message Hm]. rewrite Hm in Hres.
      destruct (readFileSync host path) as [e|content] eqn:Hread; [done|].
      destruct (JSON_parse host content) as [message'|raw] eqn:Hparse;
        [by exists content, message'|].
      destruct (Zod.parse ToolsConfigSchema (Some raw)) as [issues|cfg]; [|done].
      exfalso.
      apply (ParseError_not_ConfigValidationError (io_error:=io_error)
               path message path issues).
      unfold catch in Hres. by apply (inj inl) in Hres.
    + intros (content & message & Hread & Hparse).
      exists message. by rewrite Hres, Hread, Hparse.
  - intros content raw Hread Hparse Hviolation.
    apply parse_throws_iff_violation in Hviolation as [issues Hissues].
    rewrite Hres, Hread, Hparse, Hissues.
    apply parse_throws in Hissues as [-> _]. split_and!; [done| |].
    + intros where_ (issue & Hin & Hpath)%violation_schema_issue.
      exists issue. split_and!; [done..|]. by apply list_elem_of_fmap_2.
    + apply schema_issue_violation.
  - split.
    + intros [issues Hi]. rewrite Hi in Hres.
      destruct (readFileSync host path) as [e|content] eqn:Hread; [done|].
      destruct (JSON_parse host content) as [message'|raw] eqn:Hparse.
      * exfalso.
        apply (ParseError_not_ConfigValidationError (io_error:=io_error)
                 path message' path issues).
        unfold catch in Hres. by apply (inj inl) in Hres.
      * destruct (Zod.parse ToolsConfigSchema (Some raw)) as [issues'|cfg] eqn:Hp;
          [|done].
        assert (Hv : ∃ where_, violation raw where_)
          by (apply parse_throws_iff_violation; eauto).
        destruct Hv as [where_ Hv]. by exists content, raw, where_.
    + intros (content & raw & where_ & Hread & Hparse & Hv).
      assert (Hp : ∃ issues, Zod.parse ToolsConfigSchema (Some raw) = inl issues)
        by (apply parse_throws_iff_violation; eauto).
      destruct Hp as [issues Hp]. exists issues.
      by rewrite Hres, Hread, Hparse, Hp.
  - intros e Hread. by rewrite Hres, Hread.
  - apply format_issue_line.
Qed.

End LoaderFailures.

Lemma loadToolsConfig_failures_witness :
  completion
    (loadToolsConfig
       (example_host None [("/srv/app/tools.config.json", "{ invalid json }")]
          (λ _, inl "Unexpected token i in JSON at position 2"))
       None)
  = inl (ParseError "/srv/app/tools.config.json"
           "Unexpected token i in JSON at position 2").
Proof.
  refine (proj1 (loadToolsConfig_failures _ None _) "{ invalid json }" _ _ _).
  - vm_compute. reflexivity.
  - vm_compute. reflexivity.
  - reflexivity.
Defined.

(** ** Scenarios of the specification *)

Example loadToolsConfig_unknown_feature :
  completion
    (loadToolsConfig
       (example_host None [("/path/to/config.json", "{...}")]
          (λ _, inr (JObject [("features",
                               JObject [("invalid-feature", JBoolean true);
                                        ("wikis", JString "off")])])))
       (Some "/path/to/config.json"))
  = inl (Error
           ("Invalid tools config file at /path/to/config.json:" +:+ LF
            +:+ "  - features.invalid-feature: Invalid enum value. Expected 'users' | 'organizations' | 'projects' | 'repositories' | 'work-items' | 'search' | 'pull-requests' | 'pipelines' | 'wikis', received 'invalid-feature'"
            +:+ LF +:+ "  - features.wikis: Expected boolean, received string")).
Proof. vm_compute. reflexivity. Qed.

Example loadToolsConfig_round_trip :
  let host :=
    example_host (Some "/custom/path/config.json")
      [("/custom/path/config.json", "{...}")]
      (λ _, inr (JObject [("features", JObject [("pipelines", JBoolean false)]);
                          ("tools",
                           JObject [("disabled",
                                     JArray [JString "trigger_pipeline"])])])) in
  ∃ cfg,
    loadToolsConfig host None
    = {| stderr :=
           [ "DEBUG - Tools config loaded from: /custom/path/config.json" +:+ LF;
             "  Disabled features: pipelines" +:+ LF;
             "  Disabled tools: trigger_pipeline" +:+ LF ];
         completion := inr cfg |}
    ∧ isToolEnabled "list_pipelines" cfg = false
    ∧ isToolEnabled "get_wiki_page" cfg = true
    ∧ isToolEnabled "trigger_pipeline" cfg = false.
Proof. eexists. split_and!; vm_compute; reflexivity. Qed.

Example disabled_index_path :
  schema_issues
    (JObject [("tools", JObject [("disabled", JArray [JString "a"; JNull])])])
  = [ {| Zod.path := [Zod.Key "tools"; Zod.Key "disabled"; Zod.Index 1];
         Zod.message := "Expected string, received null" |} ]
  ∧ format_issue
      {| Zod.path := [Zod.Key "tools"; Zod.Key "disabled"; Zod.Index 1];
         Zod.message := "Expected string, received null" |}
    = "  - tools.disabled.1: Expected string, received null".
Proof. split; vm_compute; reflexivity. Qed.

(** * Further properties *)

(** ** Resolver *)

(** X1. For every property key, in or outside the feature enumeration,
    [isFeatureEnabled] is falsy only for an own key of [config.features] that
    is set to [false]. *)
Theorem isFeatureEnabled_falsy_iff (k : string) (c : ToolsConfig) :
  Js.truthy Js.truthy_bool (isFeatureEnabled k c) = false ↔
  features c !! k = Some false.
Proof.
  unfold isFeatureEnabled, Js.get.
  destruct (features c !! k) as [[]|]; cbn; [naive_solver..|].
  destruct (bool_decide _); cbn; naive_solver.
Qed.

(** X2. Listing one more tool in [tools.disabled] disables that tool and
    changes the answer for no other tool, whatever the features say. *)
Theorem isToolEnabled_disable_one (t : string) (c c' : ToolsConfig) :
  features c' = features c →
  (∀ x, x ∈ disabled (tools c') ↔ x = t ∨ x ∈ disabled (tools c)) →
  isToolEnabled t c' = false
  ∧ (∀ t', t' ≠ t → isToolEnabled t' c' = isToolEnabled t' c).
Proof.
  intros Hf Hd. unfold isToolEnabled, isFeatureEnabled. rewrite Hf. split.
  - assert (Hin : Js.includes (disabled (tools c')) t = true)
      by (apply includes_elem_of, Hd; by left).
    rewrite Hin. by destruct (_ && _).
  - intros t' Hne.
    assert (Hsame : Js.includes (disabled (tools c')) t'
                    = Js.includes (disabled (tools c)) t').
    { destruct (Js.includes (disabled (tools c)) t') eqn:Hc.
      - apply includes_elem_of, Hd. right. by apply includes_elem_of.
      - apply includes_false. intros [?|Hin]%Hd; [done|].
        by apply includes_false in Hc. }
    by rewrite Hsame.
Qed.

Lemma isToolEnabled_disable_one_witness :
  isToolEnabled "trigger_pipeline"
    {| features := ∅; tools := {| disabled := ["trigger_pipeline"] |} |} = false.
Proof.
  refine (proj1 (isToolEnabled_disable_one "trigger_pipeline"
                   DEFAULT_TOOLS_CONFIG _ _ _)).
  - reflexivity.
  - intros x. cbn. rewrite list_elem_of_singleton, elem_of_nil. tauto.
Defined.

Lemma normalized_insert (c : ToolsConfig) (f : FeatureName) (b : bool) :
  normalized c → f ∈ FEATURE_NAMES →
  normalized {| features := <[f := b]> (features c); tools := tools c |}.
Proof.
  intros Hc Hf k Hk. cbn [features] in Hk.
  destruct (decide (f = k)) as [<-|Hne]; [done|].
  rewrite lookup_insert_ne in Hk by done. by apply Hc.
Qed.

(** X3. On a normalized configuration, setting the override of a feature [f]
    changes the answer only for the tools that [TOOL_TO_FEATURE] assigns to
    [f]: every other tool keeps its answer, and a tool of [f] follows the new
    value unless it is listed in [tools.disabled]. *)
Theorem isToolEnabled_feature_override (f : FeatureName) (b : bool)
    (c : ToolsConfig) :
  normalized c → f ∈ FEATURE_NAMES →
  let c' := {| features := <[f := b]> (features c); tools := tools c |} in
  (∀ t, TOOL_TO_FEATURE !! t ≠ Some f → isToolEnabled t c' = isToolEnabled t c)
  ∧ (∀ t, TOOL_TO_FEATURE !! t = Some f →
          isToolEnabled t c' = b && negb (Js.includes (disabled (tools c)) t)).
Proof.
  intros Hc Hf c'.
  assert (Hc' : normalized c') by by apply normalized_insert.
  split; intros t Ht; rewrite !isToolEnabled_unfold by done;
    unfold c'; cbn [features tools].
  - destruct (TOOL_TO_FEATURE !! t) as [g|]; [|done].
    rewrite lookup_insert_ne; [done | congruence].
  - by rewrite Ht, lookup_insert_eq.
Qed.

Lemma isToolEnabled_feature_override_witness :
  isToolEnabled "get_wiki_page"
    {| features := <["pipelines" := false]> ∅; tools := {| disabled := [] |} |}
  = isToolEnabled "get_wiki_page" DEFAULT_TOOLS_CONFIG.
Proof.
  refine (proj1 (isToolEnabled_feature_override "pipelines" false
                   DEFAULT_TOOLS_CONFIG normalized_default _)
            "get_wiki_page" _).
  - apply (bool_decide_unpack _). vm_compute. reflexivity.
  - vm_compute. discriminate.
Defined.

Lemma filter_filter {A} (p q : A → bool) (a : list A) :
  Js.filter p (Js.filter q a) = Js.filter (λ x, q x && p x) a.
Proof.
  induction a as [|x a IH]; [done|]. cbn [Js.filter].
  destruct (q x); cbn [Js.filter andb]; by rewrite IH.
Qed.

Lemma filter_ext {A} (p q : A → bool) (a : list A) :
  (∀ x, x ∈ a → p x = q x) → Js.filter p a = Js.filter q a.
Proof.
  induction a as [|x a IH]; intros Hpq; [done|]. cbn [Js.filter].
  rewrite (Hpq x) by left. rewrite IH; [done|]. intros y Hy. apply Hpq. by right.
Qed.

Lemma filter_none {A} (p : A → bool) (a : list A) :
  Js.filter p a = [] ↔ ∀ x, x ∈ a → p x = false.
Proof.
  induction a as [|x a IH]; cbn [Js.filter].
  - split; [by intros _ ? ?%elem_of_nil | done].
  - destruct (p x) eqn:Hx.
    + split; [done|]. intros H. specialize (H x ltac:(left)). congruence.
    + rewrite IH. split.
      * intros H y [->|Hy]%elem_of_cons; auto.
      * intros H y Hy. apply H. by right.
Qed.

Lemma filter_all {A} (p : A → bool) (a : list A) :
  Js.filter p a = a ↔ ∀ x, x ∈ a → p x = true.
Proof.
  induction a as [|x a IH]; cbn [Js.filter].
  - split; [by intros _ ? ?%elem_of_nil | done].
  - destruct (p x) eqn:Hx.
    + split.
      * intros [= Ha] y [->|Hy]%elem_of_cons; [done|]. by apply IH.
      * intros H. f_equal. apply IH. intros y Hy. apply H. by right.
    + split.
      * intros Heq. pose proof (filter_sublist p a) as Hsub.
        rewrite Heq in Hsub. apply sublist_length in Hsub. cbn in Hsub. lia.
      * intros H. specialize (H x ltac:(left)). congruence.
Qed.

Lemma filter_app {A} (p : A → bool) (a b : list A) :
  Js.filter p (a ++ b) = Js.filter p a ++ Js.filter p b.
Proof.
  induction a as [|x a IH]; [done|]. cbn [Js.filter app].
  destruct (p x); cbn; by rewrite IH.
Qed.

(** X4. Filtering twice changes nothing more: the enabled tools of the
    enabled tools are the enabled tools, none of them is disabled (and the
    same with the roles exchanged), and both filters distribute over the
    concatenation of candidate lists. *)
Theorem enabled_disabled_compose (L L' : list string) (c : ToolsConfig) :
  getEnabledTools (getEnabledTools L c) c = getEnabledTools L c
  ∧ getDisabledTools (getDisabledTools L c) c = getDisabledTools L c
  ∧ getDisabledTools (getEnabledTools L c) c = []
  ∧ getEnabledTools (getDisabledTools L c) c = []
  ∧ getEnabledTools (L ++ L') c = getEnabledTools L c ++ getEnabledTools L' c
  ∧ getDisabledTools (L ++ L') c
    = getDisabledTools L c ++ getDisabledTools L' c.
Proof.
  unfold getEnabledTools, getDisabledTools. split_and!.
  - rewrite filter_filter. apply filter_ext. intros t _.
    by destruct (isToolEnabled t c).
  - rewrite filter_filter. apply filter_ext. intros t _.
    by destruct (isToolEnabled t c).
  - rewrite filter_filter. apply filter_none. intros t _.
    by destruct (isToolEnabled t c).
  - rewrite filter_filter. apply filter_none. intros t _.
    by destruct (isToolEnabled t c).
  - apply filter_app.
  - apply filter_app.
Qed.

(** X5. [getEnabledTools] returns its input unchanged exactly when every
    candidate is enabled, which is exactly when [getDisabledTools] returns the
    empty list; on the default configuration this is the case for every
    input. *)
Theorem getEnabledTools_unchanged (L : list string) (c : ToolsConfig) :
  (getEnabledTools L c = L ↔ ∀ t, t ∈ L → isToolEnabled t c = true)
  ∧ (getEnabledTools L c = L ↔ getDisabledTools L c = [])
  ∧ getEnabledTools L DEFAULT_TOOLS_CONFIG = L
  ∧ getDisabledTools L DEFAULT_TOOLS_CONFIG = [].
Proof.
  unfold getEnabledTools, getDisabledTools.
  assert (Hdefault : ∀ t, isToolEnabled t DEFAULT_TOOLS_CONFIG = true).
  { intros t. rewrite isToolEnabled_unfold by apply normalized_default.
    unfold DEFAULT_TOOLS_CONFIG. cbn [features tools disabled Js.includes negb].
    rewrite andb_true_r. destruct (TOOL_TO_FEATURE !! t); [|done].
    by rewrite lookup_empty. }
  split_and!.
  - apply filter_all.
  - rewrite filter_all, filter_none. split; intros H t Ht.
    + by rewrite H.
    + apply negb_false_iff. by apply H.
  - apply filter_all. auto.
  - apply filter_none. intros t _. by rewrite Hdefault.
Qed.

(** ** Loader: what a call returns and writes *)

Section LoaderResults.
Context {io_error : Type} (host : Host io_error).

(** X6. Every configuration that [loadToolsConfig] returns, the default one
    or one parsed from a file, is normalized: the keys of its [features] are
    feature names. *)
Theorem loadToolsConfig_returns_normalized (configPath : option string)
    (cfg : ToolsConfig) :
  completion (loadToolsConfig host configPath) = inr cfg → normalized cfg.
Proof.
  unfold loadToolsConfig.
  destruct (existsSync host _); cbn [negb].
  - rewrite try_load_eval.
    destruct (readFileSync host _) as [e|content]; [done|].
    destruct (JSON_parse host content) as [message|raw]; [done|].
    destruct (Zod.parse ToolsConfigSchema (Some raw)) as [issues|cfg'] eqn:Hp;
      [done|].
    cbn. intros [= <-]. by eapply parse_normalized.
  - cbn. intros [= <-]. apply normalized_default.
Qed.

(** X7. For an existing file whose contents are valid JSON without a schema
    violation, [loadToolsConfig] returns the configuration the schema parses
    from it, and writes two or three lines to [stderr], the first naming the
    resolved path. *)
Theorem loadToolsConfig_success (configPath : option string)
    (content : string) (raw : json) :
  let path := effectivePath host configPath in
  existsSync host path = true →
  readFileSync host path = inr content →
  JSON_parse host content = inr raw →
  (∀ where_, ¬ violation raw where_) →
  ∃ cfg,
    Zod.parse ToolsConfigSchema (Some raw) = inr cfg
    ∧ completion (loadToolsConfig host configPath) = inr cfg
    ∧ head (stderr (loadToolsConfig host configPath))
      = Some ("DEBUG - Tools config loaded from: " +:+ path +:+ LF)
    ∧ 2 ≤ length (stderr (loadToolsConfig host configPath)) ≤ 3.
Proof.
  intros path Hexists Hread Hparse Hvalid.
  destruct (Zod.parse ToolsConfigSchema (Some raw)) as [issues|cfg] eqn:Hp.
  { exfalso.
    assert (Hv : ∃ where_, violation raw where_)
      by (apply parse_throws_iff_violation; eauto).
    destruct Hv as [where_ Hv]. by apply (Hvalid where_). }
  exists cfg. unfold loadToolsConfig. fold path.
  rewrite Hexists, try_load_eval, Hread, Hparse, Hp. cbn [negb stderr completion].
  split_and!; [done..| |].
  - unfold log_loaded.
    destruct (Js.filter _ FEATURE_NAMES), (disabled (tools cfg)); cbn; lia.
  - unfold log_loaded.
    destruct (Js.filter _ FEATURE_NAMES), (disabled (tools cfg)); cbn; lia.
Qed.

(** X8. [loadToolsConfig] writes nothing to [stderr] when the file is missing
    and when the call throws. *)
Theorem loadToolsConfig_silent (configPath : option string) :
  (existsSync host (effectivePath host configPath) = false →
   stderr (loadToolsConfig host configPath) = [])
  ∧ (∀ error, completion (loadToolsConfig host configPath) = inl error →
              stderr (loadToolsConfig host configPath) = []).
Proof.
  unfold loadToolsConfig. split.
  - by intros ->.
  - intros error. destruct (existsSync host _); cbn [negb]; [|done].
    by destruct (try_load host _).
Qed.

End LoaderResults.

Lemma feature_has_tool (f : FeatureName) :
  f ∈ FEATURE_NAMES → ∃ t, TOOL_TO_FEATURE !! t = Some f.
Proof.
  intros Hf.
  assert (Hne : tools_of FEATURE_TOOLS f ≠ []).
  { revert f Hf. apply Forall_forall.
    apply (bool_decide_unpack _). vm_compute. reflexivity. }
  destruct (tools_of FEATURE_TOOLS f) as [|t ts] eqn:Hts; [done|].
  exists t. apply TOOL_TO_FEATURE_owner. rewrite Hts. left.
Qed.

Lemma disabled_features_filter (cfg : ToolsConfig) :
  Js.filter (λ f, negb (Js.truthy Js.truthy_bool (isFeatureEnabled f cfg)))
    FEATURE_NAMES
  = Js.filter (λ f, bool_decide (features cfg !! f = Some false)) FEATURE_NAMES.
Proof.
  apply filter_ext. intros f Hf. rewrite isFeatureEnabled_feature by done.
  by destruct (features cfg !! f) as [[]|].
Qed.

(** X9. The summary that [loadToolsConfig] writes is truthful on a normalized
    configuration: after the line naming the path come a line listing the
    features set to [false], in the order of [FEATURE_NAMES], when there is
    one, a line listing [tools.disabled] when it is not empty, and the line
    [All features and tools enabled] exactly when [isToolEnabled] is [true]
    for every tool name. *)
Theorem log_loaded_truthful (path : string) (cfg : ToolsConfig) :
  normalized cfg →
  let off :=
    Js.filter (λ f, bool_decide (features cfg !! f = Some false)) FEATURE_NAMES in
  log_loaded path cfg
  = ["DEBUG - Tools config loaded from: " +:+ path +:+ LF]
    ++ match off with
       | [] => []
       | _ => ["  Disabled features: " +:+ Js.join ", " off +:+ LF]
       end
    ++ match disabled (tools cfg) with
       | [] => []
       | _ => ["  Disabled tools: " +:+ Js.join ", " (disabled (tools cfg)) +:+ LF]
       end
    ++ match off, disabled (tools cfg) with
       | [], [] => ["  All features and tools enabled" +:+ LF]
       | _, _ => []
       end
  ∧ (("  All features and tools enabled" +:+ LF) ∈ log_loaded path cfg ↔
     ∀ t, isToolEnabled t cfg = true).
Proof.
  intros Hc off.
  assert (Hlog : log_loaded path cfg
    = ["DEBUG - Tools config loaded from: " +:+ path +:+ LF]
      ++ match off with
         | [] => []
         | _ => ["  Disabled features: " +:+ Js.join ", " off +:+ LF]
         end
      ++ match disabled (tools cfg) with
         | [] => []
         | _ => ["  Disabled tools: " +:+ Js.join ", " (disabled (tools cfg)) +:+ LF]
         end
      ++ match off, disabled (tools cfg) with
         | [], [] => ["  All features and tools enabled" +:+ LF]
         | _, _ => []
         end).
  { unfold log_loaded. rewrite disabled_features_filter. fold off.
    by destruct off, (disabled (tools cfg)). }
  split; [done|]. rewrite Hlog.
  destruct off as [|f off'] eqn:Hoff.
  - destruct (disabled (tools cfg)) as [|d ds] eqn:Hd.
    + split; [intros _ | intros _; right; left].
      intros t. rewrite isToolEnabled_unfold, Hd by done. cbn [Js.includes negb].
      rewrite andb_true_r.
      destruct (TOOL_TO_FEATURE !! t) as [g|] eqn:Hg; [|done].
      apply TOOL_TO_FEATURE_feature in Hg.
      pose proof (proj1 (filter_none _ _) Hoff g Hg) as Hnot.
      apply bool_decide_eq_false in Hnot.
      by destruct (features cfg !! g) as [[]|].
    + split.
      * cbn. intros [H|[H|H%elem_of_nil]%elem_of_cons]%elem_of_cons;
          [discriminate H | discriminate H | done].
      * intros Hall. specialize (Hall d).
        rewrite isToolEnabled_unfold, Hd in Hall by done.
        cbn [Js.includes] in Hall. rewrite String.eqb_refl in Hall.
        by rewrite andb_false_r in Hall.
  - split.
    + destruct (disabled (tools cfg)); cbn;
        rewrite !elem_of_cons, elem_of_nil; intros H;
        repeat destruct H as [H|H]; try discriminate H; done.
    + intros Hall.
      assert (Hf : f ∈ Js.filter
                (λ f, bool_decide (features cfg !! f = Some false)) FEATURE_NAMES)
        by (fold off; rewrite Hoff; left).
      apply filter_elem_of in Hf as [Hf Hfalse%bool_decide_eq_true].
      destruct (feature_has_tool f Hf) as [t Ht]. specialize (Hall t).
      by rewrite isToolEnabled_unfold, Ht, Hfalse in Hall.
Qed.

(** ** Schema: what a successful parse holds *)

Lemma feature_key_not_proto (k : string) :
  Js.includes FEATURE_NAMES k = true → String.eqb k "__proto__" = false.
Proof.
  intros Hk. destruct (String.eqb_spec k "__proto__") as [->|]; [|done].
  vm_compute in Hk. discriminate Hk.
Qed.

Lemma record_output_lookup (path : list Zod.segment)
    (kvs : list (string * json)) (acc m : gmap string bool) :
  (Zod.mergeRecord
     ((λ kv : string * json,
         (Zod.z_enum FEATURE_NAMES (path ++ [Zod.Key kv.1]) (Some (JString kv.1)),
          Zod.z_boolean (path ++ [Zod.Key kv.1]) (Some kv.2))) <$> kvs)
     acc).2 = Some m →
  NoDup kvs.*1 →
  ∀ k b, m !! k = Some b ↔
         (k, JBoolean b) ∈ kvs ∨ ((k ∉ kvs.*1) ∧ acc !! k = Some b).
Proof.
  revert acc. induction kvs as [|[k0 v0] kvs IH]; intros acc Hm Hnd k b.
  - cbn in Hm. injection Hm as <-. rewrite elem_of_nil.
    split; [intros ?; right; split; [apply not_elem_of_nil | done] | naive_solver].
  - rewrite fmap_cons in Hm. cbn [Zod.mergeRecord fst snd] in Hm.
    rewrite feature_key_parse, feature_value_parse in Hm.
    destruct (Js.includes FEATURE_NAMES k0) eqn:Hk0.
    2:{ destruct v0; by destruct (Zod.mergeRecord _ _). }
    rewrite (feature_key_not_proto k0 Hk0) in Hm.
    destruct v0 as [|b0| | | |]; try by destruct (Zod.mergeRecord _ _).
    destruct (Zod.mergeRecord _ (<[k0:=b0]> acc)) as [issues r] eqn:Hrec.
    cbn [snd] in Hm. subst r.
    rewrite fmap_cons in Hnd. cbn [fst] in Hnd.
    apply NoDup_cons in Hnd as [Hk0' Hnd].
    assert (Hr : (Zod.mergeRecord
                    ((λ kv : string * json,
                        (Zod.z_enum FEATURE_NAMES (path ++ [Zod.Key kv.1])
                           (Some (JString kv.1)),
                         Zod.z_boolean (path ++ [Zod.Key kv.1]) (Some kv.2)))
                       <$> kvs)
                    (<[k0:=b0]> acc)).2 = Some m) by by rewrite Hrec.
    rewrite (IH _ Hr Hnd k b). rewrite fmap_cons, !elem_of_cons. cbn [fst].
    destruct (decide (k = k0)) as [->|Hne].
    + rewrite lookup_insert_eq. split.
      * intros [Hin|[_ [= ->]]]; [|by left; left].
        exfalso. apply Hk0'. apply list_elem_of_fmap. by exists (k0, JBoolean b).
      * intros [[[= ->]|Hin]|[Hnot _]].
        -- right. by split.
        -- by left.
        -- exfalso. apply Hnot. by left.
    + rewrite lookup_insert_ne by done. split.
      * intros [Hin|[Hnot Hacc]]; [by left; right|].
        right. split; [|done]. intros [?|?]; done.
      * intros [[[= ? _]|Hin]|[Hnot Hacc]]; [done | by left |].
        right. split; [|done]. intros Hin. apply Hnot. by right.
Qed.

Lemma array_output_strings (items : list json) (ds : list string) :
  ∀ g : nat → list Zod.segment,
    (Zod.mergeArray (imap (λ i item, Zod.z_string (g i) (Some item)) items)).2
    = Some ds →
    items = JString <$> ds.
Proof.
  revert ds. induction items as [|item items IH]; intros ds g.
  - cbn. by intros [= <-].
  - cbn [imap Zod.mergeArray].
    destruct (Zod.z_string (g 0) (Some item)) as [issues r] eqn:Hitem.
    destruct (Zod.mergeArray _) as [issues' rs] eqn:Hrest. cbn [snd].
    destruct r as [s|], rs as [l|]; try done. intros [= <-].
    rewrite fmap_cons. f_equal.
    + destruct item; cbn in Hitem; by simplify_eq.
    + apply (IH l (g ∘ S)). unfold compose in *. by rewrite Hrest.
Qed.

(** X10. A successful parse keeps what the file says: [features] holds
    exactly the boolean entries of the file's [features] object, and
    [tools.disabled] is the file's array of strings, in its order. *)
Theorem schema_keeps_entries (es : list (string * json)) (cfg : ToolsConfig) :
  Zod.parse ToolsConfigSchema (Some (JObject es)) = inr cfg →
  (∀ kvs, field es "features" = Some (JObject kvs) → NoDup kvs.*1 →
          ∀ k b, features cfg !! k = Some b ↔ (k, JBoolean b) ∈ kvs)
  ∧ (∀ ts items,
       field es "tools" = Some (JObject ts) →
       field ts "disabled" = Some (JArray items) →
       items = JString <$> disabled (tools cfg)).
Proof.
  unfold Zod.parse. rewrite ToolsConfigSchema_object.
  destruct (features_schema _ _).2 as [m|] eqn:Hm; [|done].
  destruct (tools_schema _ _).2 as [t|] eqn:Ht; [|done].
  intros [= <-]. cbn [features tools]. split.
  - intros kvs Hkvs Hnd k b.
    rewrite Hkvs, features_schema_eval in Hm.
    rewrite (record_output_lookup _ _ _ _ Hm Hnd), lookup_empty. naive_solver.
  - intros ts items Hts Hitems.
    rewrite Hts, tools_schema_eval, Hitems, disabled_schema_eval in Ht.
    cbn [snd] in Ht.
    destruct (Zod.mergeArray _).2 as [ds|] eqn:Hds; [|done].
    cbn in Ht. injection Ht as <-. cbn [disabled].
    by apply (array_output_strings items ds
                (λ i, ([Zod.Key "tools"] ++ [Zod.Key "disabled"]) ++ [Zod.Index i])).
Qed.

(** X11. The defaults apply field by field: when a parse succeeds, an absent
    [features] gives the empty map, and an absent [tools], or a [tools] object
    without [disabled], gives the empty list, whatever the other field
    holds. *)
Theorem schema_field_defaults (es : list (string * json)) (cfg : ToolsConfig) :
  Zod.parse ToolsConfigSchema (Some (JObject es)) = inr cfg →
  (field es "features" = None → features cfg = ∅)
  ∧ (field es "tools" = None → disabled (tools cfg) = [])
  ∧ (∀ ts, field es "tools" = Some (JObject ts) →
           field ts "disabled" = None → disabled (tools cfg) = []).
Proof.
  unfold Zod.parse. rewrite ToolsConfigSchema_object.
  destruct (features_schema _ _).2 as [m|] eqn:Hm; [|done].
  destruct (tools_schema _ _).2 as [t|] eqn:Ht; [|done].
  intros [= <-]. cbn [features tools]. split_and!.
  - intros Hnone. rewrite Hnone, features_schema_eval in Hm. by injection Hm.
  - intros Hnone. rewrite Hnone, tools_schema_eval in Ht. by injection Ht as <-.
  - intros ts Hts Hnone.
    rewrite Hts, tools_schema_eval, Hnone, disabled_schema_eval in Ht.
    by injection Ht as <-.
Qed.

(** X12. The configurations the schema can return are exactly the normalized
    ones: every parsed configuration is normalized, and every normalized
    configuration is what the schema returns on some input. *)
Theorem schema_image (cfg : ToolsConfig) :
  normalized cfg ↔ ∃ data, Zod.parse ToolsConfigSchema data = inr cfg.
Proof.
  split; [|intros [data Hdata]; by eapply parse_normalized].
  intros Hc. destruct cfg as [fs [ds]].
  set (kvs := (λ kb : string * bool, (kb.1, JBoolean kb.2)) <$> map_to_list fs).
  exists (Some (JObject [("features", JObject kvs);
                         ("tools", JObject [("disabled", JArray (JString <$> ds))])])).
  unfold Zod.parse. rewrite ToolsConfigSchema_object.
  cbn [field String.eqb Ascii.eqb Bool.eqb].
  rewrite (tools_schema_eval _ (Some _)). cbn [field String.eqb Ascii.eqb Bool.eqb].
  rewrite disabled_schema_strings. cbn [fst snd fmap option_fmap option_map].
  assert (Hissues : (features_schema [Zod.Key "features"] (Some (JObject kvs))).1 = []).
  { destruct (features_schema _ _).1 as [|issue rest] eqn:Hi; [done|]. exfalso.
    assert (Hin : issue ∈ (features_schema [Zod.Key "features"]
                             (Some (JObject kvs))).1) by (rewrite Hi; left).
    apply features_schema_issue in Hin
      as [(v & [= <-] & Hv & _)|(? & k & v & [= <-] & Hkv & Hbad)]; [done|].
    apply list_elem_of_fmap in Hkv as ([k' b] & [= -> ->] & Hkb).
    apply elem_of_map_to_list in Hkb. destruct Hbad as [[Hk _]|[Hb _]]; [|done].
    apply Hk, Hc. cbn [features]. by rewrite Hkb. }
  destruct (features_schema _ _).2 as [m|] eqn:Hm.
  2:{ apply coherent_features_schema in Hm. by rewrite Hissues in Hm. }
  f_equal. f_equal. apply map_eq. intros k. apply option_eq. intros b.
  rewrite features_schema_eval in Hm.
  assert (Hnd : NoDup kvs.*1).
  { unfold kvs. rewrite <-list_fmap_compose.
    apply (NoDup_fst_map_to_list fs). }
  rewrite (record_output_lookup _ _ _ _ Hm Hnd), lookup_empty.
  unfold kvs. rewrite list_elem_of_fmap. split.
  - intros [([k' b'] & [= -> ->] & Hkb)|[_ ?]]; [|done].
    by apply elem_of_map_to_list.
  - intros Hkb. left. exists (k, b). split; [done|]. by apply elem_of_map_to_list.
Qed.

(** X13. Values of the wrong shape are rejected where they stand: a
    top-level value that is no object gives the single issue [Expected
    object, received ...] at the empty path, and an element of
    [tools.disabled] that is no string gives an issue [Expected string,
    received ...] at [tools.disabled.<index>]. *)
Theorem schema_rejects_wrong_shapes :
  (∀ raw, is_object raw = false →
          Zod.parse ToolsConfigSchema (Some raw)
          = inl [ {| Zod.path := [];
                     Zod.message := "Expected object, received "
                                    +:+ Zod.parsed_type (Some raw) |} ])
  ∧ (∀ es ts items i v,
       field es "tools" = Some (JObject ts) →
       field ts "disabled" = Some (JArray items) →
       items !! i = Some v → is_string v = false →
       ∃ issues,
         Zod.parse ToolsConfigSchema (Some (JObject es)) = inl issues
         ∧ {| Zod.path := [Zod.Key "tools"; Zod.Key "disabled"; Zod.Index i];
              Zod.message := "Expected string, received "
                             +:+ Zod.parsed_type (Some v) |} ∈ issues).
Proof.
  split.
  - intros raw Hraw. unfold Zod.parse.
    by rewrite ToolsConfigSchema_not_object.
  - intros es ts items i v Hts Hitems Hi Hv.
    assert (Hin : Zod.invalid_type
                    [Zod.Key "tools"; Zod.Key "disabled"; Zod.Index i]
                    "string" (Some v) ∈ schema_issues (JObject es)).
    { unfold schema_issues. rewrite ToolsConfigSchema_object. cbn [fst].
      apply elem_of_app. right. apply tools_schema_issue. right.
      exists ts. split; [done|]. apply disabled_schema_issue. right.
      by exists items, i, v. }
    exists (schema_issues (JObject es)). split; [|done].
    apply parse_throws. split; [done|]. intros Hnil. rewrite Hnil in Hin.
    by apply elem_of_nil in Hin.
Qed.

Lemma schema_rejects_wrong_shapes_witness :
  Zod.parse ToolsConfigSchema (Some JNull)
  = inl [ {| Zod.path := []; Zod.message := "Expected object, received null" |} ].
Proof.
  refine (proj1 schema_rejects_wrong_shapes JNull _).
  reflexivity.
Defined.

(** ** Catalog: the reducer on any catalog *)

(** X14. The reducer that builds the reverse index lets the last feature win:
    for any catalog, a tool (other than [__proto__], which an assignment to a
    plain object does not store) is mapped to the last feature whose list
    holds it, and a tool that no list holds has no entry. *)
Theorem reverse_index_last_wins (pre post : list (FeatureName * list string))
    (f : FeatureName) (ts : list string) (t : string) :
  t ≠ "__proto__" →
  (t ∈ ts → t ∉ all_tools post →
   reverse_index (pre ++ (f, ts) :: post) !! t = Some f)
  ∧ (t ∉ all_tools (pre ++ post) → reverse_index (pre ++ post) !! t = None).
Proof.
  intros _. unfold reverse_index. split.
  - intros Hin Hpost. rewrite foldl_app. cbn [foldl].
    rewrite reduce_lookup_other by done.
    rewrite assign_tools_lookup. by rewrite decide_True.
  - intros Hnone. by rewrite reduce_lookup_other, lookup_empty.
Qed.

Lemma reverse_index_last_wins_witness :
  reverse_index ([("users", ["get_me"])] ++ ("projects", ["get_me"]) :: [])
    !! "get_me" = Some "projects".
Proof.
  refine (proj1 (reverse_index_last_wins [("users", ["get_me"])] []
                   "projects" ["get_me"] "get_me" _) _ _).
  - discriminate.
  - left.
  - apply not_elem_of_nil.
Defined.

(** ** Updating a pull request comment *)

Section UpdateCommentProperties.
Context {E R : Type} (transformCommentType : option nat → option string).
Context (connection : PullRequests.WebApi (E := E) (R := R)).
Context (projectId repositoryId : string) (pullRequestId threadId commentId : float).
Context (content : string).

Lemma updatePullRequestComment_eval :
  PullRequests.updatePullRequestComment transformCommentType connection
    projectId repositoryId pullRequestId threadId commentId content
  = match PullRequests.getGitApi connection with
    | inl cause => inl (PullRequests.rethrow cause)
    | inr gitApi =>
        match PullRequests.updateComment gitApi content repositoryId
                pullRequestId threadId commentId projectId with
        | inl cause => inl (PullRequests.rethrow cause)
        | inr None =>
            inl (PullRequests.OtherError
                   "Failed to update pull request comment: Failed to update pull request comment")
        | inr (Some updated) =>
            inr {| PullRequests.comment :=
                     {| PullRequests.commentType :=
                          transformCommentType (PullRequests.commentType updated);
                        PullRequests.properties :=
                          PullRequests.properties updated |} |}
        end
    end.
Proof.
  unfold PullRequests.updatePullRequestComment, PullRequests.try_update.
  destruct (PullRequests.getGitApi connection) as [cause|gitApi]; [done|].
  cbn [mbind try_bind].
  by destruct (PullRequests.updateComment gitApi _ _ _ _ _ _) as [cause|[updated|]].
Qed.

(** X15. [updatePullRequestComment] resolves exactly when [getGitApi]
    resolves and [updateComment], called on [{ content }] with the
    repository, pull request, thread and comment ids and then the project,
    resolves to a comment; the response is that comment with its
    [commentType] transformed and its other properties as they are. *)
Theorem updatePullRequestComment_resolves
    (response : PullRequests.UpdateCommentResponse (R := R)) :
  PullRequests.updatePullRequestComment transformCommentType connection
    projectId repositoryId pullRequestId threadId commentId content
  = inr response ↔
  ∃ gitApi updated,
    PullRequests.getGitApi connection = inr gitApi
    ∧ PullRequests.updateComment gitApi content repositoryId pullRequestId
        threadId commentId projectId = inr (Some updated)
    ∧ PullRequests.commentType (PullRequests.comment response)
      = transformCommentType (PullRequests.commentType updated)
    ∧ PullRequests.properties (PullRequests.comment response)
      = PullRequests.properties updated.
Proof.
  rewrite updatePullRequestComment_eval.
  destruct (PullRequests.getGitApi connection) as [e|gitApi] eqn:Hapi.
  { split; [done | by intros (? & ? & ? & _)]. }
  destruct (PullRequests.updateComment gitApi _ _ _ _ _ _)
    as [e|[updated|]] eqn:Hupdate.
  - split; [done | intros (? & ? & [= <-] & Hu & _); congruence].
  - split.
    + intros [= <-]. by exists gitApi, updated.
    + intros (? & ? & [= <-] & Hu & Ht & Hp).
      rewrite Hupdate in Hu. injection Hu as <-.
      destruct response as [[ct ps]]. cbn in *. by subst.
  - split; [done | intros (? & ? & [= <-] & Hu & _); congruence].
Qed.

(** X16. Whatever [updatePullRequestComment] rejects with is either an
    [AzureDevOpsError] that one of the two calls rejected with, unchanged, or
    an [Error] whose message is [Failed to update pull request comment: ]
    followed by the message of the rejection (its string form when it is no
    [Error]), or by the function's own message when [updateComment] resolved
    to no comment. *)
Theorem updatePullRequestComment_rejects (error : PullRequests.thrown E) :
  PullRequests.updatePullRequestComment transformCommentType connection
    projectId repositoryId pullRequestId threadId commentId content
  = inl error →
  let rejected cause :=
    PullRequests.getGitApi connection = inl cause
    ∨ ∃ gitApi,
        PullRequests.getGitApi connection = inr gitApi
        ∧ PullRequests.updateComment gitApi content repositoryId pullRequestId
            threadId commentId projectId = inl cause in
  (∃ e, error = PullRequests.AzureDevOpsError e ∧ rejected error)
  ∨ (∃ message,
       error = PullRequests.OtherError
                 ("Failed to update pull request comment: " +:+ message)
       ∧ (rejected (PullRequests.OtherError message)
          ∨ rejected (PullRequests.NotAnError message)
          ∨ (message = "Failed to update pull request comment"
             ∧ ∃ gitApi,
                 PullRequests.getGitApi connection = inr gitApi
                 ∧ PullRequests.updateComment gitApi content repositoryId
                     pullRequestId threadId commentId projectId = inr None))).
Proof.
  rewrite updatePullRequestComment_eval.
  destruct (PullRequests.getGitApi connection) as [cause|gitApi] eqn:Hapi.
  { intros [= <-]. destruct cause as [e|message|text]; cbn.
    - left. exists e. split; [done | by left].
    - right. exists message. split; [done|]. left. by left.
    - right. exists text. split; [done|]. right. left. by left. }
  destruct (PullRequests.updateComment gitApi _ _ _ _ _ _)
    as [cause|[updated|]] eqn:Hupdate; [|done|].
  - intros [= <-]. destruct cause as [e|message|text]; cbn.
    + left. exists e. split; [done|]. right. by exists gitApi.
    + right. exists message. split; [done|]. left. right. by exists gitApi.
    + right. exists text. split; [done|]. right. left. right. by exists gitApi.
  - intros [= <-]. right.
    exists "Failed to update pull request comment". split; [done|]. right. right.
    split; [done|]. by exists gitApi.
Qed.

(** X17. Once [getGitApi] has resolved, a rejection of [updateComment] with
    an [AzureDevOpsError] is passed on unchanged, a rejection with another
    [Error] is replaced by an [Error] with the prefixed message, and a
    resolution to [null] or [undefined] ends in the function's own [catch],
    so that the message names the failure twice. *)
Theorem updatePullRequestComment_settles (gitApi : PullRequests.GitApi) :
  PullRequests.getGitApi connection = inr gitApi →
  let settled :=
    PullRequests.updateComment gitApi content repositoryId pullRequestId
      threadId commentId projectId in
  let result :=
    PullRequests.updatePullRequestComment transformCommentType connection
      projectId repositoryId pullRequestId threadId commentId content in
  (∀ e, settled = inl (PullRequests.AzureDevOpsError e) →
        result = inl (PullRequests.AzureDevOpsError e))
  ∧ (∀ message, settled = inl (PullRequests.OtherError message) →
        result = inl (PullRequests.OtherError
                        ("Failed to update pull request comment: " +:+ message)))
  ∧ (settled = inr None →
     result = inl (PullRequests.OtherError
                     "Failed to update pull request comment: Failed to update pull request comment")).
Proof.
  intros Hapi settled result. unfold result, settled.
  rewrite updatePullRequestComment_eval, Hapi.
  split_and!; [intros e Hs | intros message Hs | intros Hs]; by rewrite Hs.
Qed.

End UpdateCommentProperties.

(** ** Witnesses *)

Lemma loadToolsConfig_returns_normalized_witness :
  normalized
    {| features := {["pipelines" := false; "wikis" := true]};
       tools := {| disabled := ["trigger_pipeline"] |} |}.
Proof.
  refine (loadToolsConfig_returns_normalized
            (example_host None [("/path/to/config.json", "{...}")]
               (λ _, inr (JObject
                            [("features",
                              JObject [("pipelines", JBoolean false);
                                       ("wikis", JBoolean true)]);
                             ("tools",
                              JObject [("disabled",
                                        JArray [JString "trigger_pipeline"])])])))
            (Some "/path/to/config.json") _ _).
  vm_compute. reflexivity.
Defined.

Lemma loadToolsConfig_success_witness :
  ∃ cfg,
    Zod.parse ToolsConfigSchema (Some (JObject [])) = inr cfg
    ∧ completion
        (loadToolsConfig
           (example_host None [("/srv/app/tools.config.json", "{}")]
              (λ _, inr (JObject [])))
           None) = inr cfg
    ∧ head (stderr
              (loadToolsConfig
                 (example_host None [("/srv/app/tools.config.json", "{}")]
                    (λ _, inr (JObject [])))
                 None))
      = Some ("DEBUG - Tools config loaded from: "
              +:+ "/srv/app/tools.config.json" +:+ LF)
    ∧ 2 ≤ length (stderr
                    (loadToolsConfig
                       (example_host None [("/srv/app/tools.config.json", "{}")]
                          (λ _, inr (JObject [])))
                       None)) ≤ 3.
Proof.
  refine (loadToolsConfig_success
            (example_host None [("/srv/app/tools.config.json", "{}")]
               (λ _, inr (JObject [])))
            None "{}" (JObject []) _ _ _ _).
  - vm_compute. reflexivity.
  - vm_compute. reflexivity.
  - reflexivity.
  - intros where_ Hv. inversion Hv; discriminate.
Defined.

Lemma loadToolsConfig_silent_witness :
  stderr (loadToolsConfig (example_host None [] (λ _, inl "unused")) None) = [].
Proof.
  refine (proj1 (loadToolsConfig_silent _ None) _).
  vm_compute. reflexivity.
Defined.

Lemma log_loaded_truthful_witness :
  ("  All features and tools enabled" +:+ LF)
    ∈ log_loaded "/srv/app/tools.config.json" DEFAULT_TOOLS_CONFIG ↔
  ∀ t, isToolEnabled t DEFAULT_TOOLS_CONFIG = true.
Proof.
  exact (proj2 (log_loaded_truthful "/srv/app/tools.config.json"
                  DEFAULT_TOOLS_CONFIG normalized_default)).
Defined.

Lemma schema_keeps_entries_witness :
  [JString "trigger_pipeline"; JString "no_such_tool"]
  = JString <$> disabled (tools {| features := {["pipelines" := false]};
                                   tools := {| disabled := ["trigger_pipeline";
                                                            "no_such_tool"] |} |}).
Proof.
  refine (proj2 (schema_keeps_entries
                   [("features", JObject [("pipelines", JBoolean false)]);
                    ("tools",
                     JObject [("disabled",
                               JArray [JString "trigger_pipeline";
                                       JString "no_such_tool"])])]
                   _ _) _ _ _ _).
  - vm_compute. reflexivity.
  - reflexivity.
  - reflexivity.
Defined.

Lemma schema_field_defaults_witness :
  disabled (tools {| features := {["wikis" := true]};
                     tools := {| disabled := [] |} |}) = [].
Proof.
  refine (proj1 (proj2 (schema_field_defaults
                          [("features", JObject [("wikis", JBoolean true)])]
                          _ _)) _).
  - vm_compute. reflexivity.
  - reflexivity.
Defined.

Lemma updatePullRequestComment_rejects_witness :
  (∃ e : string,
     PullRequests.AzureDevOpsError "Custom error" = PullRequests.AzureDevOpsError e)
  ∨ (∃ message,
       PullRequests.AzureDevOpsError "Custom error"
       = PullRequests.OtherError
           ("Failed to update pull request comment: " +:+ message)).
Proof.
  destruct (updatePullRequestComment_rejects example_transform
              (example_connection
                 (inl (PullRequests.AzureDevOpsError "Custom error")))
              "test-project" "test-repo" 123%float 456%float 101%float
              "Updated comment content"
              (PullRequests.AzureDevOpsError "Custom error") eq_refl)
    as [(e & He & _)|(message & Hm & _)].
  - left. by exists e.
  - right. by exists message.
Defined.

Lemma updatePullRequestComment_settles_witness :
  PullRequests.updatePullRequestComment example_transform
    (example_connection (inr None))
    "test-project" "test-repo" 123%float 456%float 101%float
    "Updated comment content"
  = inl (PullRequests.OtherError
           "Failed to update pull request comment: Failed to update pull request comment").
Proof.
  refine (proj2 (proj2 (updatePullRequestComment_settles example_transform
                          (example_connection (inr None))
                          "test-project" "test-repo" 123%float 456%float
                          101%float "Updated comment content" _ _)) _).
  - reflexivity.
  - reflexivity.
Defined.

Example updatePullRequestComment_text_comment :
  PullRequests.updatePullRequestComment example_transform
    (example_connection
       (inr (Some {| PullRequests.commentType := Some 1;
                     PullRequests.properties := "id: 101" |})))
    "test-project" "test-repo" 123%float 456%float 101%float
    "Updated comment content"
  = inr {| PullRequests.comment :=
             {| PullRequests.commentType := Some "text";
                PullRequests.properties := "id: 101" |} |}.
Proof. reflexivity. Qed.
